(** * rtab: column widths and the basic / fancy table renderers

    A shallow embedding of [Table::calculate_widths], [Table::basic_format]
    and [Table::fancy_format] from [src/main.rs].

    - A Rust [char] is its Unicode scalar value, an [N]; a [&str] / [String]
      is the list of its chars.  [str::len] is the UTF-8 byte length
      ([str_len]), while the padding of [format!] counts chars ([length]).
    - A [StringRecord] is the list of its fields.
    - A [usize] is a [nat]; the two sums the code computes, [widths[i] + spaces]
      and [width + spaces * 2], go through [usize_add] / [usize_mul], which
      follow the build [profile]: with overflow checks (the debug profile) an
      overflow panics, without them (the release profile) it wraps modulo 2^64.
    - A [width$] / [spaces$] count of [format!] must fit a [u16] (Rust 1.87
      and later): a larger count panics with "Formatting argument out of
      range" ([fmt_count]).
    - [Result<String>] together with the panics the code can reach (indexing
      [self.widths[i]] out of range, [String::truncate] off a char boundary,
      an arithmetic overflow, a format count out of range) is the type
      [outcome].  Running out of memory is not modelled. *)

From Stdlib Require Import String Ascii.
From Stdlib Require Import List Arith NArith Lia Bool.
Import ListNotations.

Definition char := N.
Definition str := list char.

(** ** Characters used by the renderers *)

Definition nl : char := 10%N.          (* '\n' *)
Definition space : char := 32%N.       (* ' '  *)
Definition hz : char := 9472%N.        (* '─' U+2500 *)
Definition vbar : char := 9474%N.      (* '│' U+2502 *)
Definition top_l : char := 9484%N.     (* '┌' U+250C *)
Definition top_r : char := 9488%N.     (* '┐' U+2510 *)
Definition bot_l : char := 9492%N.     (* '└' U+2514 *)
Definition bot_r : char := 9496%N.     (* '┘' U+2518 *)
Definition sep_l : char := 9500%N.     (* '├' U+251C *)
Definition sep_r : char := 9508%N.     (* '┤' U+2524 *)
Definition top_m : char := 9516%N.     (* '┬' U+252C *)
Definition bot_m : char := 9524%N.     (* '┴' U+2534 *)
Definition sep_m : char := 9532%N.     (* '┼' U+253C *)

(** Number of bytes of the UTF-8 encoding of a char. *)
Definition utf8_len (c : char) : nat :=
  if (c <? 128)%N then 1
  else if (c <? 2048)%N then 2
  else if (c <? 65536)%N then 3
  else 4.

(** [str::len]: the length in bytes. *)
Definition str_len (s : str) : nat :=
  fold_right (fun c n => utf8_len c + n) 0 s.

(** [char::is_whitespace]: the Unicode White_Space property. *)
Definition is_whitespace (c : char) : bool :=
  ((9 <=? c) && (c <=? 13))%N || (c =? 32)%N || (c =? 133)%N
  || (c =? 160)%N || (c =? 5760)%N
  || ((8192 <=? c) && (c <=? 8202))%N
  || (c =? 8232)%N || (c =? 8233)%N || (c =? 8239)%N
  || (c =? 8287)%N || (c =? 12288)%N.

(** ** Outcomes: [Result<T>] plus the reachable panics *)

Inductive panic_kind : Set :=
  | IndexOutOfBounds
  | NotCharBoundary
  | ArithmeticOverflow
  | CountOutOfRange.

(** [std::fmt::Error], boxed into [Box<dyn Error>] by [?]. *)
Inductive fmt_error : Set := FormatError.

Inductive outcome (A : Type) :=
| Ok (a : A)
| Err (e : fmt_error)
| Panic (p : panic_kind).
Arguments Ok {A}.
Arguments Err {A}.
Arguments Panic {A}.

Definition bind {A B} (m : outcome A) (k : A -> outcome B) : outcome B :=
  match m with
  | Ok a => k a
  | Err e => Err e
  | Panic p => Panic p
  end.

Notation "x <- m ;; k" := (bind m (fun x => k))
  (at level 61, m at next level, right associativity).

(** [write!(output, ...)] on a [String]: [<String as fmt::Write>::write_str]
    pushes the text and returns [Ok(())]. *)
Definition write_str (output : str) (s : str) : outcome str :=
  Ok (output ++ s).

(** [self.widths[i]]. *)
Definition index (v : list nat) (i : nat) : outcome nat :=
  match nth_error v i with
  | Some w => Ok w
  | None => Panic IndexOutOfBounds
  end.

(** ** [usize] arithmetic and format counts *)

(** The cargo profile the binary is built with: [Debug] keeps the overflow
    checks, [Release] drops them. *)
Inductive profile : Set := Debug | Release.

Definition usize_modulus : N := (2 ^ 64)%N.

(** The [usize] result of an operation whose exact value is [n]. *)
Definition usize_result (prof : profile) (n : N) : outcome nat :=
  if (n <? usize_modulus)%N then Ok (N.to_nat n)
  else match prof with
       | Debug => Panic ArithmeticOverflow
       | Release => Ok (N.to_nat (n mod usize_modulus))
       end.

(** [a + b] and [a * b] on [usize]. *)
Definition usize_add (prof : profile) (a b : nat) : outcome nat :=
  usize_result prof (N.of_nat a + N.of_nat b).

Definition usize_mul (prof : profile) (a b : nat) : outcome nat :=
  usize_result prof (N.of_nat a * N.of_nat b).

(** [n] reduced modulo 2^64. *)
Definition usize_wrap (n : nat) : nat := N.to_nat (N.of_nat n mod usize_modulus).

(** A [width$] or [spaces$] count: [Argument::from_usize] panics when it is
    above [u16::MAX]. *)
Definition fmt_count (n : nat) : outcome nat :=
  if (N.of_nat n <=? 65535)%N then Ok n else Panic CountOutOfRange.

(** [n] is accepted as a count: at most [u16::MAX]. *)
Definition fits_count (n : nat) : Prop := (N.of_nat n <= 65535)%N.

(** [Formatter::pad] for a left-aligned string argument: pad with [fill] up
    to [width] chars; a longer argument is emitted whole. *)
Definition pad (fill : char) (width : nat) (s : str) : str :=
  s ++ repeat fill (width - length s).

(** [output.rfind(|c| !char::is_whitespace(c))]: byte index of the start of
    the last non-whitespace char. *)
Fixpoint rfind_nonws_from (pos : nat) (s : str) : option nat :=
  match s with
  | [] => None
  | c :: s' =>
      match rfind_nonws_from (pos + utf8_len c) s' with
      | Some k => Some k
      | None => if is_whitespace c then None else Some pos
      end
  end.

Definition rfind_nonws (s : str) : option nat := rfind_nonws_from 0 s.

(** [String::truncate(new_len)]: a no-op when [new_len >= len]; otherwise
    keeps the first [new_len] bytes, and panics ([None] here) when
    [new_len] is not on a char boundary. *)
Fixpoint truncate (s : str) (new_len : nat) : option str :=
  match s with
  | [] => Some []
  | c :: s' =>
      if new_len =? 0 then Some []
      else if utf8_len c <=? new_len then
        option_map (cons c) (truncate s' (new_len - utf8_len c))
      else None
  end.

(** ** The table *)

Definition record := list str.

Record Table := mkTable { records : list record; widths : list nat }.

(** The closure folded by [calculate_widths]:
    [acc.iter().zip(r.iter()).map(|e| ( *e.0).max(e.1.len())).collect()]. *)
Definition widths_step (acc : list nat) (r : record) : list nat :=
  map (fun e => Nat.max (fst e) (str_len (snd e))) (combine acc r).

(** [Table::calculate_widths]. *)
Definition calculate_widths (records : list record) : list nat :=
  let len := match records with [] => 0 | r :: _ => length r end in
  fold_left widths_step records (repeat 0 len).

(** [Table::from_path] once [parse_records] has produced the records. *)
Definition from_records (records : list record) : Table :=
  {| records := records; widths := calculate_widths records |}.

(** ** [Table::basic_format] *)

(** [for (i, field) in record.iter().enumerate() {
       write!(output, "{:width$}", field, width = self.widths[i] + spaces)?; }] *)
Fixpoint basic_fields (prof : profile) (widths : list nat) (spaces : nat)
    (output : str) (i : nat) (fields : record) : outcome str :=
  match fields with
  | [] => Ok output
  | field :: fields' =>
      w <- index widths i ;;
      width <- usize_add prof w spaces ;;
      width <- fmt_count width ;;
      output' <- write_str output (pad space width field) ;;
      basic_fields prof widths spaces output' (S i) fields'
  end.

(** [let len = output.rfind(..).unwrap_or(0) + 1; output.truncate(len);] *)
Definition trim_trailing (output : str) : outcome str :=
  let len := match rfind_nonws output with Some k => k | None => 0 end + 1 in
  match truncate output len with
  | Some o => Ok o
  | None => Panic NotCharBoundary
  end.

Fixpoint basic_rows (prof : profile) (widths : list nat) (spaces : nat)
    (output : str) (records : list record) : outcome str :=
  match records with
  | [] => Ok output
  | record :: records' =>
      o1 <- basic_fields prof widths spaces output 0 record ;;
      o2 <- trim_trailing o1 ;;
      o3 <- write_str o2 [nl] ;;
      basic_rows prof widths spaces o3 records'
  end.

Definition basic_format (prof : profile) (t : Table) (spaces : nat) : outcome str :=
  basic_rows prof (widths t) spaces [] (records t).

(** ** [Table::fancy_format] *)

(** One of the three horizontal-rule loops:
    [for (i, width) in self.widths.iter().enumerate() {
       let vertical = match i { 0 => left, _ => mid };
       write!(output, "{}{:─<width$}", vertical, "", width = width + spaces * 2)?; }] *)
Fixpoint rule_cells (prof : profile) (left mid : char) (spaces : nat)
    (output : str) (i : nat) (ws : list nat) : outcome str :=
  match ws with
  | [] => Ok output
  | width :: ws' =>
      let vertical := match i with 0 => left | _ => mid end in
      double <- usize_mul prof spaces 2 ;;
      count <- usize_add prof width double ;;
      count <- fmt_count count ;;
      output' <- write_str output ([vertical] ++ pad hz count []) ;;
      rule_cells prof left mid spaces output' (S i) ws'
  end.

(** The loop followed by [writeln!(output, right)?]. *)
Definition rule_line (prof : profile) (left mid right : char) (spaces : nat)
    (output : str) (ws : list nat) : outcome str :=
  o <- rule_cells prof left mid spaces output 0 ws ;;
  write_str o [right; nl].

(** [for (j, field) in record.iter().enumerate() {
       write!(output, "│{:<spaces$}{:width$}{:<spaces$}", "", field, "",
              spaces = spaces, width = self.widths[j])?; }] *)
Fixpoint fancy_fields (widths : list nat) (spaces : nat) (output : str)
    (j : nat) (fields : record) : outcome str :=
  match fields with
  | [] => Ok output
  | field :: fields' =>
      w <- index widths j ;;
      sp <- fmt_count spaces ;;
      width <- fmt_count w ;;
      output' <- write_str output
                   ([vbar] ++ pad space sp [] ++ pad space width field
                    ++ pad space sp []) ;;
      fancy_fields widths spaces output' (S j) fields'
  end.

(** The row loop: separator condition [(separators && i > 0) || (headers && i == 1)]. *)
Definition sep_before (headers separators : bool) (i : nat) : bool :=
  (separators && (0 <? i)) || (headers && (i =? 1)).

Fixpoint fancy_rows (prof : profile) (headers separators : bool)
    (widths : list nat) (spaces : nat) (output : str) (i : nat)
    (records : list record) : outcome str :=
  match records with
  | [] => Ok output
  | record :: records' =>
      o1 <- (if sep_before headers separators i
             then rule_line prof sep_l sep_m sep_r spaces output widths
             else Ok output) ;;
      o2 <- fancy_fields widths spaces o1 0 record ;;
      o3 <- write_str o2 [vbar; nl] ;;
      fancy_rows prof headers separators widths spaces o3 (S i) records'
  end.

Definition fancy_format (prof : profile) (t : Table) (headers separators : bool)
    (spaces : nat) : outcome str :=
  o1 <- rule_line prof top_l top_m top_r spaces [] (widths t) ;;
  o2 <- fancy_rows prof headers separators (widths t) spaces o1 0 (records t) ;;
  rule_line prof bot_l bot_m bot_r spaces o2 (widths t).

(** ** Reading text: UTF-8 literals and lines *)

(** Decoding of UTF-8 bytes, used to write string literals. *)
Fixpoint utf8_decode (l : list N) : str :=
  match l with
  | [] => []
  | b0 :: r =>
      if (b0 <? 128)%N then b0 :: utf8_decode r else
      match r with
      | [] => []
      | b1 :: r1 =>
          if (b0 <? 224)%N then
            (N.land b0 31 * 64 + N.land b1 63)%N :: utf8_decode r1 else
          match r1 with
          | [] => []
          | b2 :: r2 =>
              if (b0 <? 240)%N then
                (N.land b0 15 * 4096 + N.land b1 63 * 64 + N.land b2 63)%N
                  :: utf8_decode r2 else
              match r2 with
              | [] => []
              | b3 :: r3 =>
                  (N.land b0 7 * 262144 + N.land b1 63 * 4096
                   + N.land b2 63 * 64 + N.land b3 63)%N :: utf8_decode r3
              end
          end
      end
  end.

Definition u (s : string) : str :=
  utf8_decode (map N_of_ascii (list_ascii_of_string s)).

(** Text made of the given lines, each followed by a newline. *)
Definition unlines (ls : list str) : str :=
  concat (map (fun l => l ++ [nl]) ls).

(** Splitting text into its lines (the newlines removed). *)
Fixpoint lines_from (cur : str) (s : str) : list str :=
  match s with
  | [] => match cur with [] => [] | _ => [rev cur] end
  | c :: s' =>
      if (c =? nl)%N then rev cur :: lines_from [] s'
      else lines_from (c :: cur) s'
  end.

Definition lines (s : str) : list str := lines_from [] s.

(** ** Views used to state the properties *)

(** A border or separator cell at column [i] of width [w], written out:
    the corner followed by [w + 2 * spaces] horizontal rules, that count taken
    modulo 2^64 as the [usize] sum is (it only differs from [w + 2 * spaces]
    when the sum wraps, in a release build). *)
Definition rule_cell (left mid : char) (spaces : nat) (iw : nat * nat) : str :=
  (match fst iw with 0 => left | _ => mid end)
    :: repeat hz (usize_wrap (snd iw + 2 * spaces)).

(** A whole border or separator line (without its newline). *)
Definition rule_row (left mid right : char) (spaces : nat) (ws : list nat) : str :=
  concat (map (rule_cell left mid spaces) (combine (seq 0 (length ws)) ws))
  ++ [right].

Definition str_eq_dec : forall x y : str, {x = y} + {x <> y} :=
  list_eq_dec N.eq_dec.

(** Number of lines of [s] equal to [target]. *)
Definition count_line (target : str) (s : str) : nat :=
  count_occ str_eq_dec (lines s) target.

(** Number of separator lines in a fancy rendering of [t]. *)
Definition separator_lines (t : Table) (spaces : nat) (out : str) : nat :=
  count_line (rule_row sep_l sep_m sep_r spaces (widths t)) out.

(** Number of rows [i .. i + n - 1] preceded by a separator. *)
Fixpoint sep_count (headers separators : bool) (i n : nat) : nat :=
  match n with
  | 0 => 0
  | S n' => (if sep_before headers separators i then 1 else 0)
            + sep_count headers separators (S i) n'
  end.

(** Field count of the first record, 0 without records. *)
Definition first_field_count (records : list record) : nat :=
  match records with [] => 0 | r :: _ => length r end.

(** Smallest field count over all records, 0 without records. *)
Definition min_field_count (records : list record) : nat :=
  fold_left (fun m r => Nat.min m (length r)) records (first_field_count records).

(** Largest byte length of a field in column [i]. *)
Definition col_max (i : nat) (records : list record) : nat :=
  fold_right (fun r m => Nat.max (str_len (nth i r [])) m) 0 records.

(** [main]: the style selected on the command line. *)
Inductive style : Set := Basic | Fancy.

(** [main] after argument parsing: build the table, then format it. *)
Definition render (prof : profile) (records : list record) (st : style)
    (headers separators : bool) (spaces : nat) : outcome str :=
  let table := from_records records in
  match st with
  | Basic => basic_format prof table spaces
  | Fancy => fancy_format prof table headers separators spaces
  end.

Definition no_err {A} (o : outcome A) : Prop :=
  match o with Err _ => False | _ => True end.

(** [o] is not the panic [p]. *)
Definition no_panic {A} (p : panic_kind) (o : outcome A) : Prop :=
  match o with Panic q => q <> p | _ => True end.

Definition sc_records : list record := [[u "a"; u "bb"]; [u "cc"; u "d"]].

Definition three_records : list record := [[u "h"]; [u "x"]; [u "y"]].

(** ** Closed forms of the renderers *)

(** A basic row before trimming: every field padded to its width plus
    [spaces], the count taken modulo [2^64] as a release build computes it
    (below [2^64] this is the plain sum). *)
Definition basic_row_text (ws : list nat) (spaces : nat) (r : record) : str :=
  concat (map (fun p => pad space (usize_wrap (fst p + spaces)) (snd p)) (combine ws r)).

(** Leading whitespace removed. *)
Fixpoint drop_ws (s : str) : str :=
  match s with
  | [] => []
  | c :: s' => if is_whitespace c then drop_ws s' else s
  end.

(** Trailing whitespace removed. *)
Definition rtrim (s : str) : str := rev (drop_ws (rev s)).

(** The last non-whitespace char, if any. *)
Definition last_nonws (s : str) : option char := hd_error (drop_ws (rev s)).

(** A fancy data line (without its newline). *)
Definition fancy_row_text (ws : list nat) (spaces : nat) (r : record) : str :=
  concat (map (fun p => [vbar] ++ pad space spaces [] ++ pad space (fst p) (snd p)
                        ++ pad space spaces []) (combine ws r)) ++ [vbar].

(** The lines between the top and bottom borders, from row [i] on. *)
Fixpoint fancy_body (headers separators : bool) (ws : list nat) (spaces : nat)
    (i : nat) (rs : list record) : list str :=
  match rs with
  | [] => []
  | r :: rs' =>
      (if sep_before headers separators i then [rule_row sep_l sep_m sep_r spaces ws]
       else [])
      ++ fancy_row_text ws spaces r :: fancy_body headers separators ws spaces (S i) rs'
  end.

(** Width in chars of a box over the widths [ws]. *)
Definition box_width (ws : list nat) (spaces : nat) : nat :=
  S (fold_right (fun w acc => S (w + 2 * spaces + acc)) 0 ws).

(** ** [main]: the [--spaces] option *)

Definition usize_max : N := (2 ^ 64 - 1)%N.

(** The digit loop of [usize::from_str_radix(_, 10)]: [to_digit], then
    [checked_mul(10)] and [checked_add]. *)
Fixpoint parse_digits (acc : N) (s : list ascii) : option N :=
  match s with
  | [] => Some acc
  | c :: s' =>
      let d := N_of_ascii c in
      if ((48 <=? d) && (d <=? 57))%N then
        if (acc * 10 <=? usize_max)%N then
          if (acc * 10 + (d - 48) <=? usize_max)%N
          then parse_digits (acc * 10 + (d - 48)) s'
          else None
        else None
      else None
  end.

(** [<usize as FromStr>::from_str]: empty is an error, a lone sign is an
    error, a leading ['+'] is skipped; an unsigned type keeps ['-'] as a digit
    (which is then invalid). *)
Definition usize_from_str (s : string) : option N :=
  match list_ascii_of_string s with
  | [] => None
  | [c] => if (N_of_ascii c =? 43)%N || (N_of_ascii c =? 45)%N then None
           else parse_digits 0 [c]
  | c :: rest => if (N_of_ascii c =? 43)%N then parse_digits 0 rest
                 else parse_digits 0 (c :: rest)
  end.

(** [matches.value_of("spaces").unwrap().parse().unwrap_or(1)]. *)
Definition parse_spaces (s : string) : nat :=
  match usize_from_str s with Some n => N.to_nat n | None => 1 end.

(** Decimal digits (each below 10) as text, and their value. *)
Definition digits_string (ds : list N) : string :=
  string_of_list_ascii (map (fun d => ascii_of_N (48 + d)) ds).

Definition digits_value (ds : list N) : N :=
  fold_left (fun acc d => (acc * 10 + d)%N) ds 0%N.

(** The bytes [from_str] reads as digits: all of them, or all but a leading
    ['+'] followed by something. *)
Definition digit_part (s : string) : list ascii :=
  match list_ascii_of_string s with
  | c :: (_ :: _) as rest => if (N_of_ascii c =? 43)%N then rest else c :: rest
  | l => l
  end.

Definition is_digit (c : ascii) : bool :=
  ((48 <=? N_of_ascii c) && (N_of_ascii c <=? 57))%N.

(** The end of [main]: a table that failed to parse is reported and the
    process exits with status 1; otherwise the chosen formatter runs with the
    parsed [--spaces] value, an [Ok] output is printed, and an [Err] is
    reported with exit status 1. A panic aborts the process. *)
Inductive run_result : Set :=
  | Printed (out : str)
  | Exit1
  | Panicked (p : panic_kind).

Definition main_tail (prof : profile) (parsed : option (list record)) (st : style)
    (headers separators : bool) (spaces_arg : string) : run_result :=
  match parsed with
  | None => Exit1
  | Some rs =>
      match render prof rs st headers separators (parse_spaces spaces_arg) with
      | Ok out => Printed out
      | Err _ => Exit1
      | Panic p => Panicked p
      end
  end.

(** * Properties *)

(** ** [usize] arithmetic and counts *)

Lemma usize_modulus_value : usize_modulus = 18446744073709551616%N.
Proof. reflexivity. Qed.

Lemma usize_result_ok (prof : profile) (n : N) (c : nat) :
  usize_result prof n = Ok c -> c = N.to_nat (n mod usize_modulus).
Proof.
  unfold usize_result. destruct (n <? usize_modulus)%N eqn:E.
  - intros H; injection H as <-. apply N.ltb_lt in E.
    rewrite N.mod_small by exact E. reflexivity.
  - destruct prof; [discriminate | intros H; injection H as <-; reflexivity].
Qed.

Lemma usize_result_small (prof : profile) (n : N) :
  (n < usize_modulus)%N -> usize_result prof n = Ok (N.to_nat n).
Proof. intros H. unfold usize_result. apply N.ltb_lt in H. rewrite H. reflexivity. Qed.

Lemma usize_add_small (prof : profile) (a b : nat) :
  fits_count (a + b) -> usize_add prof a b = Ok (a + b).
Proof.
  unfold fits_count. intros H. unfold usize_add. rewrite usize_result_small.
  - f_equal. lia.
  - rewrite usize_modulus_value. lia.
Qed.

Lemma usize_mul_small (prof : profile) (a b : nat) :
  fits_count (a * b) -> usize_mul prof a b = Ok (a * b).
Proof.
  unfold fits_count. intros H. unfold usize_mul. rewrite usize_result_small.
  - f_equal. lia.
  - rewrite usize_modulus_value. lia.
Qed.

Lemma usize_wrap_small (n : nat) : fits_count n -> usize_wrap n = n.
Proof.
  unfold fits_count. intros H. unfold usize_wrap. rewrite N.mod_small; [apply Nat2N.id|].
  rewrite usize_modulus_value. lia.
Qed.

Lemma fmt_count_ok (n c : nat) : fmt_count n = Ok c -> c = n.
Proof.
  unfold fmt_count. destruct (_ <=? _)%N; intros H; [injection H as <-; reflexivity|].
  discriminate.
Qed.

Lemma fmt_count_small (n : nat) : fits_count n -> fmt_count n = Ok n.
Proof.
  unfold fits_count. intros H. unfold fmt_count.
  replace (N.of_nat n <=? 65535)%N with true by (symmetry; apply N.leb_le; lia).
  reflexivity.
Qed.

Lemma fmt_count_large (n : nat) :
  (65535 < N.of_nat n)%N -> fmt_count n = Panic CountOutOfRange.
Proof.
  intros H. unfold fmt_count.
  replace (N.of_nat n <=? 65535)%N with false by (symmetry; apply N.leb_gt; lia).
  reflexivity.
Qed.

(** The count of a rule cell, [width + spaces * 2], is the sum modulo 2^64
    whenever it is computed at all. *)
Lemma rule_count_ok (prof : profile) (w spaces m c : nat) :
  usize_mul prof spaces 2 = Ok m -> usize_add prof w m = Ok c ->
  c = usize_wrap (w + 2 * spaces).
Proof.
  unfold usize_add, usize_mul, usize_wrap. intros Hm Hc.
  apply usize_result_ok in Hm, Hc. subst c m.
  rewrite N2Nat.id, N.Div0.add_mod_idemp_r.
  do 2 f_equal. lia.
Qed.

(** ** Horizontal rules *)

Lemma pad_empty (fill : char) (n : nat) : pad fill n [] = repeat fill n.
Proof. unfold pad; simpl; rewrite Nat.sub_0_r; reflexivity. Qed.

Lemma rule_cells_shape (prof : profile) (left mid : char) (spaces : nat) (ws : list nat) :
  forall output i o, rule_cells prof left mid spaces output i ws = Ok o ->
  o = output ++ concat (map (rule_cell left mid spaces) (combine (seq i (length ws)) ws)).
Proof.
  induction ws as [|w ws IH]; intros output i o H; cbn [rule_cells] in H.
  - injection H as <-. simpl. rewrite app_nil_r. reflexivity.
  - destruct (usize_mul prof spaces 2) as [m| |] eqn:Em; cbn [bind] in H; try discriminate.
    destruct (usize_add prof w m) as [c| |] eqn:Ec; cbn [bind] in H; try discriminate.
    destruct (fmt_count c) as [c'| |] eqn:Ef; cbn [bind] in H; try discriminate.
    apply fmt_count_ok in Ef as ->. pose proof (rule_count_ok _ _ _ _ _ Em Ec) as ->.
    unfold write_str in H; cbn [bind] in H. apply IH in H as ->.
    rewrite pad_empty, <- app_assoc. unfold rule_cell. simpl. destruct i; reflexivity.
Qed.

Lemma rule_cells_small (prof : profile) (left mid : char) (spaces : nat) (ws : list nat) :
  Forall (fun w => fits_count (w + 2 * spaces)) ws -> forall output i,
  rule_cells prof left mid spaces output i ws
  = Ok (output ++ concat (map (rule_cell left mid spaces) (combine (seq i (length ws)) ws))).
Proof.
  induction 1 as [|w ws Hw _ IH]; intros output i; cbn [rule_cells].
  - simpl. rewrite app_nil_r. reflexivity.
  - unfold fits_count in Hw.
    rewrite usize_mul_small by (unfold fits_count; lia); cbn [bind].
    rewrite usize_add_small by (unfold fits_count; lia); cbn [bind].
    rewrite fmt_count_small by (unfold fits_count; lia); cbn [bind].
    unfold write_str; cbn [bind]. rewrite IH.
    rewrite pad_empty, <- app_assoc. unfold rule_cell. simpl.
    rewrite usize_wrap_small by (unfold fits_count; lia). replace (spaces * 2) with (spaces + (spaces + 0)) by lia.
    destruct i; reflexivity.
Qed.

Lemma rule_line_shape (prof : profile) (left mid right : char) (spaces : nat)
    (output : str) (ws : list nat) (o : str) :
  rule_line prof left mid right spaces output ws = Ok o ->
  o = output ++ rule_row left mid right spaces ws ++ [nl].
Proof.
  unfold rule_line, rule_row.
  destruct (rule_cells prof left mid spaces output 0 ws) as [o1| |] eqn:E;
    cbn [bind]; intros H; try discriminate.
  apply rule_cells_shape in E as ->. injection H as <-.
  rewrite <- !app_assoc; reflexivity.
Qed.

Lemma rule_line_small (prof : profile) (left mid right : char) (spaces : nat)
    (output : str) (ws : list nat) :
  Forall (fun w => fits_count (w + 2 * spaces)) ws ->
  rule_line prof left mid right spaces output ws
  = Ok (output ++ rule_row left mid right spaces ws ++ [nl]).
Proof.
  intros H. unfold rule_line, rule_row. rewrite rule_cells_small by exact H.
  cbn [bind]. unfold write_str. rewrite <- !app_assoc; reflexivity.
Qed.

Lemma rule_row_chars (left mid right : char) (spaces : nat) (ws : list nat) (c : char) :
  In c (rule_row left mid right spaces ws) ->
  c = left \/ c = mid \/ c = right \/ c = hz.
Proof.
  unfold rule_row; rewrite in_app_iff; intros [H | [H | []]]; [|auto].
  apply in_concat in H as (cell & Hcell & Hc).
  apply in_map_iff in Hcell as ([i w] & <- & _).
  unfold rule_cell in Hc; simpl in Hc.
  destruct Hc as [<- | Hc]; [destruct i; auto|].
  apply repeat_spec in Hc; auto.
Qed.

Lemma rule_row_head (left mid right : char) (spaces : nat) (ws : list nat) :
  hd_error (rule_row left mid right spaces ws)
  = Some (match ws with [] => right | _ => left end).
Proof. destruct ws; reflexivity. Qed.

(** ** Lines *)

Lemma lines_from_line (cur a b : str) :
  ~ In nl a -> lines_from cur (a ++ nl :: b) = (rev cur ++ a) :: lines_from [] b.
Proof.
  revert cur; induction a as [|c a IH]; intros cur Ha; simpl.
  - rewrite app_nil_r; reflexivity.
  - assert (Hc : (c =? nl)%N = false)
      by (apply N.eqb_neq; intros ->; apply Ha; left; reflexivity).
    rewrite Hc, IH by (intros H; apply Ha; right; exact H).
    simpl; rewrite <- app_assoc; reflexivity.
Qed.

Lemma lines_unlines_app (ls : list str) (rest : str) :
  Forall (fun l => ~ In nl l) ls -> lines (unlines ls ++ rest) = ls ++ lines rest.
Proof.
  induction 1 as [|l ls Hl _ IH]; [reflexivity|].
  unfold lines in *; unfold unlines in *; simpl.
  rewrite <- !app_assoc; simpl; rewrite lines_from_line by exact Hl.
  rewrite IH; reflexivity.
Qed.

Lemma lines_unlines (ls : list str) :
  Forall (fun l => ~ In nl l) ls -> lines (unlines ls) = ls.
Proof.
  intros H; rewrite <- (app_nil_r (unlines ls)), lines_unlines_app by exact H.
  apply app_nil_r.
Qed.

Lemma unlines_app (l1 l2 : list str) : unlines (l1 ++ l2) = unlines l1 ++ unlines l2.
Proof. unfold unlines; rewrite map_app, concat_app; reflexivity. Qed.

(** ** Shape of the fancy output *)

Ltac chars_neq := unfold nl, space, hz, vbar, top_l, top_r, top_m, bot_l, bot_r,
  bot_m, sep_l, sep_r, sep_m; discriminate.

Lemma rule_row_no_nl (left mid right : char) (spaces : nat) (ws : list nat) :
  left <> nl -> mid <> nl -> right <> nl ->
  ~ In nl (rule_row left mid right spaces ws).
Proof.
  intros Hl Hm Hr Hin.
  destruct (rule_row_chars _ _ _ _ _ _ Hin) as [H | [H | [H | H]]];
    [apply Hl | apply Hm | apply Hr | revert H; chars_neq]; congruence.
Qed.

Lemma rule_row_differ (l m r l' m' r' : char) (spaces : nat) (ws : list nat) :
  l <> l' -> r <> r' -> rule_row l m r spaces ws <> rule_row l' m' r' spaces ws.
Proof.
  intros Hl Hr E.
  pose proof (f_equal (@hd_error char) E) as Eh.
  rewrite !rule_row_head in Eh.
  destruct ws; injection Eh; assumption.
Qed.

Lemma fancy_fields_shape (ws : list nat) (spaces : nat) (fields : record) :
  forall output j o, fancy_fields ws spaces output j fields = Ok o ->
  exists d, o = output ++ d /\
    (Forall (fun f => ~ In nl f) fields -> ~ In nl d) /\
    hd_error (d ++ [vbar]) = Some vbar.
Proof.
  induction fields as [|f fs IH]; intros output j o H; simpl in H.
  - injection H as <-. exists []. rewrite app_nil_r.
    split; [reflexivity | split; [intros _ [] | reflexivity]].
  - unfold index in H. destruct (nth_error ws j) as [w|]; cbn [bind] in H; [|discriminate].
    destruct (fmt_count spaces) as [sp| |] eqn:Es; cbn [bind] in H; try discriminate.
    destruct (fmt_count w) as [w'| |] eqn:Ew; cbn [bind] in H; try discriminate.
    apply fmt_count_ok in Es as ->. apply fmt_count_ok in Ew as ->.
    unfold write_str in H; cbn [bind] in H.
    apply IH in H as (d & -> & Hnl & _).
    exists (([vbar] ++ pad space spaces [] ++ pad space w f ++ pad space spaces []) ++ d).
    split; [rewrite <- !app_assoc; simpl; rewrite <- !app_assoc; reflexivity|]. split; [|reflexivity].
    intros Hf; inversion Hf as [|? ? Hf0 Hfs]; subst.
    rewrite !pad_empty; unfold pad. intros Hin.
    rewrite !in_app_iff in Hin; simpl in Hin.
    destruct Hin as [[[H|[]] | [H | [[H | H] | H]]] | H].
    + revert H; chars_neq.
    + apply repeat_spec in H; revert H; chars_neq.
    + exact (Hf0 H).
    + apply repeat_spec in H; revert H; chars_neq.
    + apply repeat_spec in H; revert H; chars_neq.
    + exact (Hnl Hfs H).
Qed.

Lemma data_line_not_rule (d : str) (spaces : nat) (ws : list nat) (l m r : char) :
  hd_error (d ++ [vbar]) = Some vbar -> l <> vbar -> r <> vbar ->
  d ++ [vbar] <> rule_row l m r spaces ws.
Proof.
  intros Hd Hl Hr E. rewrite E, rule_row_head in Hd.
  destruct ws; injection Hd; assumption.
Qed.

Lemma fancy_rows_cons (prof : profile) (headers separators : bool) (ws : list nat)
    (spaces : nat) (output : str) (i : nat) (r : record) (rs : list record) (o : str) :
  fancy_rows prof headers separators ws spaces output i (r :: rs) = Ok o ->
  exists o2,
    fancy_fields ws spaces
      (if sep_before headers separators i
       then output ++ rule_row sep_l sep_m sep_r spaces ws ++ [nl] else output)
      0 r = Ok o2 /\
    fancy_rows prof headers separators ws spaces (o2 ++ [vbar; nl]) (S i) rs = Ok o.
Proof.
  cbn [fancy_rows]. destruct (sep_before headers separators i).
  - destruct (rule_line prof sep_l sep_m sep_r spaces output ws) as [o1| |] eqn:E1;
      cbn [bind]; intros H; try discriminate.
    apply rule_line_shape in E1 as ->.
    destruct (fancy_fields _ _ _ 0 r) eqn:E; cbn [bind write_str] in H; try discriminate.
    eauto.
  - cbn [bind]. destruct (fancy_fields _ _ _ 0 r) eqn:E; cbn [bind write_str];
      intros H; try discriminate. eauto.
Qed.

Lemma fancy_rows_shape (prof : profile) (headers separators : bool) (ws : list nat)
    (spaces : nat) (rs : list record) :
  forall output i o, fancy_rows prof headers separators ws spaces output i rs = Ok o ->
  exists L, o = output ++ unlines L /\
    (Forall (Forall (fun f => ~ In nl f)) rs -> Forall (fun l => ~ In nl l) L) /\
    count_occ str_eq_dec L (rule_row sep_l sep_m sep_r spaces ws)
    = sep_count headers separators i (length rs).
Proof.
  induction rs as [|r rs IH]; intros output i o H.
  - simpl in H; injection H as <-. exists []. rewrite app_nil_r.
    split; [reflexivity | split; [constructor | reflexivity]].
  - apply fancy_rows_cons in H as (o2 & E & H).
    set (sep := rule_row sep_l sep_m sep_r spaces ws) in *.
    assert (Hsep : ~ In nl sep) by (apply rule_row_no_nl; chars_neq).
    apply fancy_fields_shape in E as (d & -> & Hnl & Hhd).
    apply IH in H as (L & -> & HL & HC).
    assert (Hne : d ++ [vbar] <> sep)
      by (apply data_line_not_rule; [exact Hhd | chars_neq | chars_neq]).
    assert (Hdl : Forall (fun f => ~ In nl f) r -> ~ In nl (d ++ [vbar])).
    { intros Hr; rewrite in_app_iff; intros [H0 | [H0 | []]];
        [exact (Hnl Hr H0) | revert H0; chars_neq]. }
    destruct (sep_before headers separators i) eqn:Hs.
    + exists (sep :: (d ++ [vbar]) :: L). split.
      { unfold unlines; simpl; repeat rewrite <- app_assoc; simpl.
        repeat rewrite <- app_assoc; reflexivity. }
      split.
      { intros Hf; inversion Hf; subst. constructor; [exact Hsep|].
        constructor; auto. }
      simpl. rewrite Hs.
      destruct (str_eq_dec sep sep) as [_|]; [|congruence].
      destruct (str_eq_dec (d ++ [vbar]) sep); [congruence|].
      rewrite HC; reflexivity.
    + exists ((d ++ [vbar]) :: L). split.
      { unfold unlines; simpl; repeat rewrite <- app_assoc; simpl.
        repeat rewrite <- app_assoc; reflexivity. }
      split.
      { intros Hf; inversion Hf; subst. constructor; auto. }
      simpl. rewrite Hs.
      destruct (str_eq_dec (d ++ [vbar]) sep); [congruence|].
      rewrite HC; reflexivity.
Qed.

Lemma fancy_format_shape (prof : profile) (t : Table) (headers separators : bool)
    (spaces : nat) (o : str) :
  fancy_format prof t headers separators spaces = Ok o ->
  exists L,
    o = unlines ([rule_row top_l top_m top_r spaces (widths t)] ++ L
                 ++ [rule_row bot_l bot_m bot_r spaces (widths t)]) /\
    (Forall (Forall (fun f => ~ In nl f)) (records t) ->
     Forall (fun l => ~ In nl l) L) /\
    count_occ str_eq_dec L (rule_row sep_l sep_m sep_r spaces (widths t))
    = sep_count headers separators 0 (length (records t)).
Proof.
  unfold fancy_format.
  destruct (rule_line prof top_l top_m top_r spaces [] (widths t)) as [o1| |] eqn:E1;
    cbn [bind]; try discriminate.
  apply rule_line_shape in E1 as ->.
  destruct (fancy_rows _ _ _ _ _ _ 0 _) as [o2| |] eqn:E; cbn [bind]; intros H;
    try discriminate.
  apply rule_line_shape in H as ->.
  apply fancy_rows_shape in E as (L & -> & HL & HC).
  exists L. split; [|auto].
  unfold unlines; simpl; rewrite map_app, concat_app; simpl.
  rewrite !app_nil_r, <- !app_assoc. reflexivity.
Qed.

(** ** Separator count *)

Lemma sep_count_all (headers : bool) (i n : nat) :
  0 < i -> sep_count headers true i n = n.
Proof.
  revert i; induction n as [|n IH]; intros i Hi; simpl; [reflexivity|].
  unfold sep_before. replace (0 <? i) with true by (symmetry; apply Nat.ltb_lt; lia).
  simpl. rewrite IH by lia. reflexivity.
Qed.

Lemma sep_count_none (headers : bool) (i n : nat) :
  1 < i -> sep_count headers false i n = 0.
Proof.
  revert i; induction n as [|n IH]; intros i Hi; simpl; [reflexivity|].
  unfold sep_before. replace (i =? 1) with false by (symmetry; apply Nat.eqb_neq; lia).
  rewrite andb_false_r. simpl. apply IH. lia.
Qed.

Lemma sep_count_closed (headers separators : bool) (n : nat) :
  sep_count headers separators 0 n
  = if separators then n - 1 else if headers && (2 <=? n) then 1 else 0.
Proof.
  destruct n as [|[|n]]; [destruct separators, headers; reflexivity| |].
  - destruct separators, headers; reflexivity.
  - destruct separators.
    + simpl. rewrite sep_count_all by lia. destruct headers; simpl; lia.
    + simpl. rewrite sep_count_none by lia. destruct headers; reflexivity.
Qed.

(** ** C1 *)

(** C1 (corrected): with the records free of newlines, the number of
    separator lines in a successful fancy rendering is [n - 1] when
    [separators] is set (whatever [headers] is), 1 when only [headers] is
    set and there are at least two records, and 0 otherwise. *)
Theorem fancy_separator_count (prof : profile) (t : Table) (headers separators : bool)
    (spaces : nat) (out : str) :
  fancy_format prof t headers separators spaces = Ok out ->
  Forall (Forall (fun f => ~ In nl f)) (records t) ->
  separator_lines t spaces out
  = if separators then length (records t) - 1
    else if headers && (2 <=? length (records t)) then 1 else 0.
Proof.
  intros H Hnl. apply fancy_format_shape in H as (L & -> & HL & HC).
  set (sep := rule_row sep_l sep_m sep_r spaces (widths t)) in *.
  unfold separator_lines, count_line. fold sep.
  rewrite lines_unlines.
  - rewrite !count_occ_app, HC, sep_count_closed. simpl.
    destruct (str_eq_dec _ sep) as [E|_];
      [exfalso; revert E; apply rule_row_differ; chars_neq|].
    destruct (str_eq_dec _ sep) as [E|_];
      [exfalso; revert E; apply rule_row_differ; chars_neq|].
    lia.
  - apply Forall_app; split; [|apply Forall_app; split].
    + constructor; [apply rule_row_no_nl; chars_neq | constructor].
    + exact (HL Hnl).
    + constructor; [apply rule_row_no_nl; chars_neq | constructor].
Qed.

Lemma fancy_separator_count_witness :
  fancy_format Release (from_records three_records) true false 1
    = Ok (unlines [u "┌───┐"; u "│ h │"; u "├───┤"; u "│ x │"; u "│ y │";
                   u "└───┘"]) /\
  Forall (Forall (fun f => ~ In nl f)) (records (from_records three_records)) /\
  separator_lines (from_records three_records) 1
    (unlines [u "┌───┐"; u "│ h │"; u "├───┤"; u "│ x │"; u "│ y │"; u "└───┘"])
  = 1.
Proof.
  assert (E : fancy_format Release (from_records three_records) true false 1
              = Ok (unlines [u "┌───┐"; u "│ h │"; u "├───┤"; u "│ x │"; u "│ y │";
                             u "└───┘"])) by (vm_compute; reflexivity).
  assert (F : Forall (Forall (fun f => ~ In nl f)) (records (from_records three_records))).
  { repeat constructor; simpl; intros [H|[]]; revert H; chars_neq. }
  split; [exact E | split; [exact F |]].
  exact (fancy_separator_count Release _ true false 1 _ E F).
Defined.

(** C1 counterexample: with [headers] and [separators] both set, three
    records give two separator lines, not one. *)
Lemma fancy_headers_and_separators_combine :
  fancy_format Debug (from_records three_records) true true 1
    = Ok (unlines [u "┌───┐"; u "│ h │"; u "├───┤"; u "│ x │"; u "├───┤";
                   u "│ y │"; u "└───┘"]) /\
  fancy_format Release (from_records three_records) true true 1
    = Ok (unlines [u "┌───┐"; u "│ h │"; u "├───┤"; u "│ x │"; u "├───┤";
                   u "│ y │"; u "└───┘"]) /\
  separator_lines (from_records three_records) 1
    (unlines [u "┌───┐"; u "│ h │"; u "├───┤"; u "│ x │"; u "├───┤"; u "│ y │";
              u "└───┘"])
  = 2.
Proof. split; [|split]; vm_compute; reflexivity. Qed.

(** ** C5 *)

(** C5: on the records [a,bb] and [cc,d] the widths are [2; 2] and the basic
    rendering with spacing 1 is the two lines ["a  bb"] and ["cc d"], in
    either build profile. *)
Theorem basic_scenario_a (prof : profile) :
  calculate_widths sc_records = [2; 2] /\
  basic_format prof (from_records sc_records) 1 = Ok (unlines [u "a  bb"; u "cc d"]).
Proof. split; [|destruct prof]; vm_compute; reflexivity. Qed.

(** ** C6 *)

Lemma rule_row_exact (left mid right : char) (spaces : nat) (ws : list nat) :
  Forall (fun w => fits_count (w + 2 * spaces)) ws ->
  rule_row left mid right spaces ws
  = concat (map (fun iw => (match fst iw with 0 => left | _ => mid end)
                           :: repeat hz (snd iw + 2 * spaces))
                (combine (seq 0 (length ws)) ws)) ++ [right].
Proof.
  intros H. unfold rule_row. f_equal. f_equal. apply map_ext_in.
  intros [i w] Hin. unfold rule_cell. cbn [fst snd].
  rewrite usize_wrap_small; [reflexivity|].
  apply in_combine_r in Hin. rewrite Forall_forall in H. exact (H w Hin).
Qed.

Lemma fold_widths_length (rs : list record) :
  forall acc, length (fold_left widths_step rs acc)
              = fold_left (fun m r => Nat.min m (length r)) rs (length acc).
Proof.
  induction rs as [|r rs IH]; intros acc; simpl; [reflexivity|].
  rewrite IH. unfold widths_step. rewrite length_map, length_combine. reflexivity.
Qed.


Lemma fold_min_le (rs : list record) :
  forall k, fold_left (fun m r => Nat.min m (length r)) rs k <= k.
Proof.
  induction rs as [|r rs IH]; intros k; simpl; [lia|].
  specialize (IH (Nat.min k (length r))). lia.
Qed.


Lemma calculate_widths_first_le (r : record) (rs : list record) :
  length (calculate_widths (r :: rs)) <= length r.
Proof.
  unfold calculate_widths. rewrite fold_widths_length, repeat_length. apply fold_min_le.
Qed.

Lemma fmt_count_fits (n c : nat) : fmt_count n = Ok c -> fits_count n.
Proof.
  unfold fmt_count, fits_count. destruct (N.of_nat n <=? 65535)%N eqn:E; [|discriminate].
  intros _. apply N.leb_le, E.
Qed.

Lemma usize_wrap_below (n : nat) : (N.of_nat n < usize_modulus)%N -> usize_wrap n = n.
Proof.
  intros H. unfold usize_wrap. rewrite N.mod_small by exact H. apply Nat2N.id.
Qed.

Lemma fancy_fields_ok_fit (ws : list nat) (spaces : nat) (fields : record) :
  forall output j o, fancy_fields ws spaces output j fields = Ok o ->
  forall k, k < length fields ->
  fits_count spaces /\ exists w, nth_error ws (j + k) = Some w /\ fits_count w.
Proof.
  induction fields as [|f fs IH]; intros output j o H k Hk; simpl in Hk; [lia|].
  cbn [fancy_fields] in H. unfold index in H.
  destruct (nth_error ws j) as [w|] eqn:Ej; cbn [bind] in H; [|discriminate].
  destruct (fmt_count spaces) as [sp| |] eqn:Es; cbn [bind] in H; try discriminate.
  destruct (fmt_count w) as [w'| |] eqn:Ew; cbn [bind] in H; try discriminate.
  unfold write_str in H; cbn [bind] in H.
  apply fmt_count_fits in Es, Ew.
  destruct k as [|k].
  - split; [exact Es|]. exists w. rewrite Nat.add_0_r. split; [exact Ej | exact Ew].
  - destruct (IH _ _ _ H k ltac:(lia)) as [_ Hw].
    rewrite Nat.add_succ_r. split; [exact Es | exact Hw].
Qed.

Lemma rule_cells_ok_fit (prof : profile) (left mid : char) (spaces : nat) (ws : list nat) :
  fits_count spaces -> Forall fits_count ws ->
  forall output i o, rule_cells prof left mid spaces output i ws = Ok o ->
  Forall (fun w => fits_count (w + 2 * spaces)) ws.
Proof.
  intros Hs. induction 1 as [|w ws Hw _ IH]; intros output i o H; [constructor|].
  cbn [rule_cells] in H.
  destruct (usize_mul prof spaces 2) as [m| |] eqn:Em; cbn [bind] in H; try discriminate.
  destruct (usize_add prof w m) as [c| |] eqn:Ec; cbn [bind] in H; try discriminate.
  destruct (fmt_count c) as [c'| |] eqn:Ef; cbn [bind] in H; try discriminate.
  unfold write_str in H; cbn [bind] in H.
  constructor; [|exact (IH _ _ _ H)].
  apply fmt_count_fits in Ef. rewrite (rule_count_ok _ _ _ _ _ Em Ec) in Ef.
  rewrite usize_wrap_below in Ef; [exact Ef|].
  rewrite usize_modulus_value. unfold fits_count in *. lia.
Qed.

(** A successful fancy rendering of a parsed table had every rule count
    within a format count: a wrapped count would come with a [spaces] or
    width beyond [u16::MAX], which the first data row rejects. *)
Lemma fancy_format_ok_fit (prof : profile) (rs : list record) (headers separators : bool)
    (spaces : nat) (out : str) :
  fancy_format prof (from_records rs) headers separators spaces = Ok out ->
  Forall (fun w => fits_count (w + 2 * spaces)) (calculate_widths rs).
Proof.
  unfold fancy_format; cbn [widths records from_records].
  destruct (calculate_widths rs) as [|w0 ws0] eqn:Ew; intros H; [constructor|].
  destruct rs as [|r rs']; [discriminate|].
  destruct (rule_line prof top_l top_m top_r spaces [] (w0 :: ws0)) as [o1| |] eqn:E1;
    cbn [bind] in H; try discriminate.
  destruct (fancy_rows prof headers separators (w0 :: ws0) spaces o1 0 (r :: rs'))
    as [o2| |] eqn:E2; cbn [bind] in H; try discriminate.
  apply fancy_rows_cons in E2 as (o3 & E3 & _).
  assert (Hlen : length (w0 :: ws0) <= length r)
    by (rewrite <- Ew; apply calculate_widths_first_le).
  assert (Hs : fits_count spaces).
  { destruct r as [|f r']; [simpl in Hlen; lia|].
    exact (proj1 (fancy_fields_ok_fit _ _ _ _ _ _ E3 0 ltac:(simpl; lia))). }
  assert (Hws : Forall fits_count (w0 :: ws0)).
  { apply Forall_forall. intros w Hin. apply In_nth_error in Hin as (k & Hk).
    assert (Hkl : k < length (w0 :: ws0)) by (apply nth_error_Some; congruence).
    destruct (fancy_fields_ok_fit _ _ _ _ _ _ E3 k ltac:(lia)) as (_ & w' & Hw' & Hf).
    simpl in Hw'. rewrite Hk in Hw'. injection Hw' as <-. exact Hf. }
  unfold rule_line in E1.
  destruct (rule_cells prof top_l top_m spaces [] 0 (w0 :: ws0)) as [c| |] eqn:Ec;
    cbn [bind] in E1; try discriminate.
  exact (rule_cells_ok_fit _ _ _ _ _ Hs Hws _ _ _ Ec).
Qed.

(** C6: the fancy rendering of [a,bb] / [cc,d] with spacing 1 and neither
    flag is the four expected lines; every rule line the code writes (top
    border, separator, bottom border) over widths whose counts
    [widths[i] + 2 * spacing] fit a format count (at most [u16::MAX]; beyond
    that the code panics, as shown further down) is, at column [i], the corner
    followed by exactly [widths[i] + 2 * spacing] horizontal rules; a
    successful fancy rendering starts with the top border and ends with the
    bottom one; and when the rendering of a parsed table succeeds, in either
    build profile and for any spacing, its counts did fit, so every rule line
    it wrote has exactly [widths[i] + 2 * spacing] rules at column [i]. *)
Theorem fancy_scenario_b_rules (prof : profile) :
  fancy_format prof (from_records sc_records) false false 1
    = Ok (unlines [u "┌────┬────┐"; u "│ a  │ bb │"; u "│ cc │ d  │";
                   u "└────┴────┘"]) /\
  (forall left mid right spaces output ws,
     Forall (fun w => fits_count (w + 2 * spaces)) ws ->
     rule_line prof left mid right spaces output ws
     = Ok (output
           ++ concat (map (fun iw => (match fst iw with 0 => left | _ => mid end)
                                     :: repeat hz (snd iw + 2 * spaces))
                          (combine (seq 0 (length ws)) ws))
           ++ [right; nl])) /\
  (forall t headers separators spaces,
     match fancy_format prof t headers separators spaces with
     | Ok out =>
         exists L, out = unlines ([rule_row top_l top_m top_r spaces (widths t)]
                                 ++ L ++ [rule_row bot_l bot_m bot_r spaces (widths t)])
     | _ => True
     end) /\
  (forall rs headers separators spaces out,
     fancy_format prof (from_records rs) headers separators spaces = Ok out ->
     Forall (fun w => fits_count (w + 2 * spaces)) (widths (from_records rs))).
Proof.
  split; [destruct prof; vm_compute; reflexivity|]. split; [|split].
  - intros left mid right spaces output ws H.
    rewrite rule_line_small, rule_row_exact by exact H.
    rewrite <- app_assoc. reflexivity.
  - intros t headers separators spaces.
    destruct (fancy_format prof t headers separators spaces) as [out| |] eqn:E;
      [|exact I|exact I].
    apply fancy_format_shape in E as (L & -> & _). eauto.
  - intros rs headers separators spaces out H.
    exact (fancy_format_ok_fit prof rs headers separators spaces out H).
Qed.

(** ** C7 *)

(** C7: without records the basic rendering is empty and the fancy rendering
    is the two border lines over the empty widths, ["┐"] and ["┘"], whatever
    the flags and the spacing. *)
Theorem empty_input_render (prof : profile) (headers separators : bool) (spaces : nat) :
  calculate_widths [] = [] /\
  basic_format prof (from_records []) spaces = Ok [] /\
  fancy_format prof (from_records []) headers separators spaces
    = Ok (unlines [u "┐"; u "┘"]).
Proof. split; [reflexivity|]. split; reflexivity. Qed.

(** ** Column widths *)

Lemma fold_min_eq (rs : list record) :
  forall k, fold_left (fun m r => Nat.min m (length r)) rs k = k
            <-> Forall (fun r => k <= length r) rs.
Proof.
  induction rs as [|r rs IH]; intros k; simpl.
  - split; [constructor | reflexivity].
  - split.
    + intros H. pose proof (fold_min_le rs (Nat.min k (length r))) as Hle.
      assert (Hk : k <= length r) by lia.
      replace (Nat.min k (length r)) with k in H by lia.
      constructor; [exact Hk | apply IH, H].
    + intros Hf; inversion Hf as [|? ? Hk Hrs]; subst.
      replace (Nat.min k (length r)) with k by lia. apply IH, Hrs.
Qed.

Lemma widths_step_nth (acc : list nat) (r : record) (i : nat) :
  length acc = length r -> i < length acc ->
  nth i (widths_step acc r) 0 = Nat.max (nth i acc 0) (str_len (nth i r [])).
Proof.
  intros Hlen Hi. unfold widths_step.
  rewrite nth_indep with (d' := (fun e : nat * str => Nat.max (fst e) (str_len (snd e)))
                                   (0, []))
    by (rewrite length_map, length_combine; lia).
  rewrite (map_nth (fun e : nat * str => Nat.max (fst e) (str_len (snd e)))
                   (combine acc r) (0, []) i).
  rewrite combine_nth by exact Hlen. reflexivity.
Qed.

Lemma fold_widths_nth (rs : list record) (n : nat) :
  Forall (fun r => length r = n) rs ->
  forall acc, length acc = n ->
  length (fold_left widths_step rs acc) = n /\
  forall i, i < n ->
    nth i (fold_left widths_step rs acc) 0 = Nat.max (nth i acc 0) (col_max i rs).
Proof.
  induction 1 as [|r rs Hr Hrs IH]; intros acc Hacc; simpl.
  - split; [exact Hacc|]. intros i _. lia.
  - assert (Hstep : length (widths_step acc r) = n)
      by (unfold widths_step; rewrite length_map, length_combine; lia).
    destruct (IH _ Hstep) as [Hl Hn]. split; [exact Hl|].
    intros i Hi. rewrite Hn by exact Hi.
    rewrite widths_step_nth by lia. symmetry; apply Nat.max_assoc.
Qed.

Lemma col_max_ge (i : nat) (rs : list record) :
  Forall (fun r => str_len (nth i r []) <= col_max i rs) rs.
Proof.
  induction rs as [|r rs IH]; simpl; constructor; [lia|].
  eapply Forall_impl; [|exact IH]. intros r' H; simpl in H; lia.
Qed.

Lemma col_max_attained (i : nat) (rs : list record) :
  rs <> [] -> Exists (fun r => str_len (nth i r []) = col_max i rs) rs.
Proof.
  induction rs as [|r rs IH]; intros Hne; [congruence|].
  change (col_max i (r :: rs)) with (Nat.max (str_len (nth i r [])) (col_max i rs)).
  destruct rs as [|r' rs'].
  - apply Exists_cons_hd. change (col_max i []) with 0. symmetry; apply Nat.max_0_r.
  - destruct (Nat.max_spec (str_len (nth i r [])) (col_max i (r' :: rs')))
      as [[Hlt ->] | [Hge ->]].
    + apply Exists_cons_tl, IH. discriminate.
    + apply Exists_cons_hd. reflexivity.
Qed.

(** C3 (corrected): the widths have as many entries as the shortest record
    (0 without records); this is the field count of the first record exactly
    when no record is shorter than the first one. *)
Theorem calculate_widths_length (records : list record) :
  length (calculate_widths records) = min_field_count records /\
  (length (calculate_widths records) = first_field_count records <->
   Forall (fun r => first_field_count records <= length r) records).
Proof.
  assert (E : length (calculate_widths records) = min_field_count records).
  { unfold calculate_widths, min_field_count. rewrite fold_widths_length, repeat_length.
    destruct records; reflexivity. }
  split; [exact E|]. rewrite E. apply fold_min_eq.
Qed.

(** C3 counterexample: a second record shorter than the first shrinks the
    widths below the first record's field count. *)
Lemma calculate_widths_ragged_shrinks :
  calculate_widths [[u "a"; u "b"]; [u "c"]] = [1] /\
  first_field_count [[u "a"; u "b"]; [u "c"]] = 2.
Proof. split; vm_compute; reflexivity. Qed.

(** C4 (corrected): on non-empty rectangular records every width is the
    largest byte length ([str::len]) of a field of its column, not its char
    count: it is reached by some record and no field of the column is longer. *)
Theorem calculate_widths_column_max (records : list record) (n : nat) :
  records <> [] -> Forall (fun r => length r = n) records ->
  length (calculate_widths records) = n /\
  forall i, i < n ->
    nth i (calculate_widths records) 0 = col_max i records /\
    Exists (fun r => str_len (nth i r []) = nth i (calculate_widths records) 0) records /\
    Forall (fun r => str_len (nth i r []) <= nth i (calculate_widths records) 0) records.
Proof.
  intros Hne Hrect.
  assert (Hfirst : (match records with [] => 0 | r :: _ => length r end) = n).
  { destruct records as [|r rs]; [congruence|]. inversion Hrect; assumption. }
  unfold calculate_widths. rewrite Hfirst.
  destruct (fold_widths_nth records n Hrect (repeat 0 n) (repeat_length 0 n)) as [Hl Hn].
  split; [exact Hl|]. intros i Hi.
  assert (Ei : nth i (fold_left widths_step records (repeat 0 n)) 0 = col_max i records).
  { rewrite Hn by exact Hi. rewrite nth_repeat. apply Nat.max_0_l. }
  rewrite Ei. split; [reflexivity|].
  split; [apply col_max_attained, Hne | apply col_max_ge].
Qed.

Lemma calculate_widths_column_max_witness :
  sc_records <> [] /\ Forall (fun r => length r = 2) sc_records /\
  length (calculate_widths sc_records) = 2 /\
  (forall i, i < 2 ->
    nth i (calculate_widths sc_records) 0 = col_max i sc_records /\
    Exists (fun r => str_len (nth i r []) = nth i (calculate_widths sc_records) 0)
      sc_records /\
    Forall (fun r => str_len (nth i r []) <= nth i (calculate_widths sc_records) 0)
      sc_records).
Proof.
  assert (H1 : sc_records <> []) by discriminate.
  assert (H2 : Forall (fun r => length r = 2) sc_records) by (repeat constructor).
  split; [exact H1 | split; [exact H2 |]].
  exact (calculate_widths_column_max sc_records 2 H1 H2).
Defined.

(** C4 counterexample: the width counts bytes: the one-char field ["é"]
    gives the width 2. *)
Lemma calculate_widths_counts_bytes :
  calculate_widths [[u "é"]] = [2] /\ length (u "é") = 1.
Proof. split; vm_compute; reflexivity. Qed.

(** ** Panics that cannot happen *)

Lemma no_panic_neq {A} (p : panic_kind) (o : outcome A) : no_panic p o -> o <> Panic p.
Proof.
  destruct o as [a|e|q]; simpl; intros H E; try discriminate.
  injection E as E. exact (H E).
Qed.

Lemma bind_no_panic {A B} (p : panic_kind) (m : outcome A) (k : A -> outcome B) :
  no_panic p m -> (forall a, no_panic p (k a)) -> no_panic p (bind m k).
Proof. destruct m; simpl; auto. Qed.

Lemma index_no_panic (p : panic_kind) (v : list nat) (i : nat) :
  i < length v \/ p <> IndexOutOfBounds -> no_panic p (index v i).
Proof.
  unfold index. destruct (nth_error v i) eqn:E; simpl; [intros _; exact I|].
  apply nth_error_None in E. intros [H|H]; [lia|].
  intros Heq; apply H; symmetry; exact Heq.
Qed.

Lemma usize_result_no_panic (p : panic_kind) (prof : profile) (n : N) :
  prof = Release \/ p <> ArithmeticOverflow -> no_panic p (usize_result prof n).
Proof.
  unfold usize_result. intros Hp. destruct (_ <? _)%N; [exact I|].
  destruct prof; simpl; [|exact I].
  destruct Hp as [Hp|Hp]; [discriminate|]. intros Heq; apply Hp; symmetry; exact Heq.
Qed.

Lemma fmt_count_no_panic (p : panic_kind) (n : nat) :
  p <> CountOutOfRange -> no_panic p (fmt_count n).
Proof.
  unfold fmt_count. intros Hp. destruct (_ <=? _)%N; simpl; [exact I|].
  intros Heq; apply Hp; symmetry; exact Heq.
Qed.

Lemma trim_trailing_no_panic (p : panic_kind) (output : str) :
  p <> NotCharBoundary -> no_panic p (trim_trailing output).
Proof.
  unfold trim_trailing. intros Hp. destruct (truncate _ _); simpl; [exact I|].
  intros Heq; apply Hp; symmetry; exact Heq.
Qed.

Lemma trim_trailing_outcome (output : str) :
  (exists o, trim_trailing output = Ok o) \/
  trim_trailing output = Panic NotCharBoundary.
Proof.
  unfold trim_trailing. destruct (truncate _ _); [left; eauto | right; reflexivity].
Qed.

Section NoPanic.

Variable p : panic_kind.
Variable prof : profile.
Hypothesis Hov : prof = Release \/ p <> ArithmeticOverflow.
Hypothesis Hcount : p <> CountOutOfRange.

Lemma basic_fields_no_panic (ws : list nat) (spaces : nat) (fields : record) :
  forall output i, i + length fields <= length ws \/ p <> IndexOutOfBounds ->
  no_panic p (basic_fields prof ws spaces output i fields).
Proof.
  induction fields as [|f fs IH]; intros output i Hi; cbn [basic_fields]; [exact I|].
  apply bind_no_panic.
  { apply index_no_panic. destruct Hi as [Hi|Hi]; [left; simpl in Hi; lia | right; exact Hi]. }
  intros w. apply bind_no_panic; [apply usize_result_no_panic, Hov|]. intros c.
  apply bind_no_panic; [apply fmt_count_no_panic, Hcount|]. intros c'.
  apply bind_no_panic; [exact I|]. intros o. apply IH.
  destruct Hi as [Hi|Hi]; [left; simpl in Hi; lia | right; exact Hi].
Qed.

Lemma basic_rows_no_panic (ws : list nat) (spaces : nat) (rs : list record) :
  p <> NotCharBoundary ->
  Forall (fun r => length r <= length ws \/ p <> IndexOutOfBounds) rs ->
  forall output, no_panic p (basic_rows prof ws spaces output rs).
Proof.
  intros Hnc. induction 1 as [|r rs Hr _ IH]; intros output; cbn [basic_rows]; [exact I|].
  apply bind_no_panic; [apply basic_fields_no_panic; exact Hr|]. intros o1.
  apply bind_no_panic; [apply trim_trailing_no_panic, Hnc|]. intros o2.
  apply bind_no_panic; [exact I|]. intros o3. apply IH.
Qed.

Lemma rule_cells_no_panic (left mid : char) (spaces : nat) (ws : list nat) :
  forall output i, no_panic p (rule_cells prof left mid spaces output i ws).
Proof.
  induction ws as [|w ws IH]; intros output i; cbn [rule_cells]; [exact I|].
  apply bind_no_panic; [apply usize_result_no_panic, Hov|]. intros m.
  apply bind_no_panic; [apply usize_result_no_panic, Hov|]. intros c.
  apply bind_no_panic; [apply fmt_count_no_panic, Hcount|]. intros c'.
  apply bind_no_panic; [exact I|]. intros o. apply IH.
Qed.

Lemma rule_line_no_panic (left mid right : char) (spaces : nat) (output : str)
    (ws : list nat) :
  no_panic p (rule_line prof left mid right spaces output ws).
Proof.
  unfold rule_line. apply bind_no_panic; [apply rule_cells_no_panic|]. intros o. exact I.
Qed.

Lemma fancy_fields_no_panic (ws : list nat) (spaces : nat) (fields : record) :
  forall output j, j + length fields <= length ws \/ p <> IndexOutOfBounds ->
  no_panic p (fancy_fields ws spaces output j fields).
Proof.
  induction fields as [|f fs IH]; intros output j Hj; cbn [fancy_fields]; [exact I|].
  apply bind_no_panic.
  { apply index_no_panic. destruct Hj as [Hj|Hj]; [left; simpl in Hj; lia | right; exact Hj]. }
  intros w. apply bind_no_panic; [apply fmt_count_no_panic, Hcount|]. intros sp.
  apply bind_no_panic; [apply fmt_count_no_panic, Hcount|]. intros w'.
  apply bind_no_panic; [exact I|]. intros o. apply IH.
  destruct Hj as [Hj|Hj]; [left; simpl in Hj; lia | right; exact Hj].
Qed.

Lemma fancy_rows_no_panic (headers separators : bool) (ws : list nat) (spaces : nat)
    (rs : list record) :
  Forall (fun r => length r <= length ws \/ p <> IndexOutOfBounds) rs ->
  forall output i, no_panic p (fancy_rows prof headers separators ws spaces output i rs).
Proof.
  induction 1 as [|r rs Hr _ IH]; intros output i; cbn [fancy_rows]; [exact I|].
  apply bind_no_panic.
  { destruct (sep_before headers separators i); [apply rule_line_no_panic | exact I]. }
  intros o1. apply bind_no_panic; [apply fancy_fields_no_panic; exact Hr|]. intros o2.
  apply bind_no_panic; [exact I|]. intros o3. apply IH.
Qed.

Lemma basic_format_no_panic (t : Table) (spaces : nat) :
  p <> NotCharBoundary ->
  Forall (fun r => length r <= length (widths t) \/ p <> IndexOutOfBounds) (records t) ->
  no_panic p (basic_format prof t spaces).
Proof. intros Hnc H. apply basic_rows_no_panic; assumption. Qed.

Lemma fancy_format_no_panic (t : Table) (headers separators : bool) (spaces : nat) :
  Forall (fun r => length r <= length (widths t) \/ p <> IndexOutOfBounds) (records t) ->
  no_panic p (fancy_format prof t headers separators spaces).
Proof.
  intros H. unfold fancy_format.
  apply bind_no_panic; [apply rule_line_no_panic|]. intros o1.
  apply bind_no_panic; [apply fancy_rows_no_panic, H|]. intros o2.
  apply rule_line_no_panic.
Qed.

End NoPanic.

(** ** Indexing the widths *)

(** C8: when no record has more fields than there are widths, indexing
    [self.widths] never goes out of bounds: neither formatter takes the index
    panic, in either build profile. *)
Theorem widths_index_in_bounds (prof : profile) (t : Table) (spaces : nat)
    (headers separators : bool) :
  Forall (fun r => length r <= length (widths t)) (records t) ->
  basic_format prof t spaces <> Panic IndexOutOfBounds /\
  fancy_format prof t headers separators spaces <> Panic IndexOutOfBounds.
Proof.
  intros H.
  assert (H' : Forall (fun r => length r <= length (widths t)
                                \/ IndexOutOfBounds <> IndexOutOfBounds) (records t))
    by (eapply Forall_impl; [|exact H]; intros r Hr; left; exact Hr).
  split; apply no_panic_neq.
  - apply basic_format_no_panic; [right; discriminate | discriminate | discriminate | exact H'].
  - apply fancy_format_no_panic; [right; discriminate | discriminate | exact H'].
Qed.

Lemma widths_index_in_bounds_witness :
  Forall (fun r => length r <= length (widths (from_records sc_records)))
    (records (from_records sc_records)) /\
  basic_format Debug (from_records sc_records) 1 <> Panic IndexOutOfBounds /\
  fancy_format Debug (from_records sc_records) true true 1 <> Panic IndexOutOfBounds.
Proof.
  assert (H : Forall (fun r => length r <= length (widths (from_records sc_records)))
                (records (from_records sc_records)))
    by (vm_compute; repeat constructor).
  split; [exact H|].
  exact (widths_index_in_bounds Debug (from_records sc_records) 1 true true H).
Defined.

(** ** No formatting error *)

Create HintDb no_err_db.

Lemma bind_no_err {A B} (m : outcome A) (k : A -> outcome B) :
  no_err m -> (forall a, no_err (k a)) -> no_err (bind m k).
Proof. destruct m; simpl; auto. Qed.

Lemma index_no_err (v : list nat) (i : nat) : no_err (index v i).
Proof. unfold index; destruct (nth_error v i); exact I. Qed.

Lemma write_str_no_err (output s : str) : no_err (write_str output s).
Proof. exact I. Qed.

Lemma usize_add_no_err (prof : profile) (a b : nat) : no_err (usize_add prof a b).
Proof.
  unfold usize_add, usize_result. destruct (_ <? _)%N; [exact I|]. destruct prof; exact I.
Qed.

Lemma usize_mul_no_err (prof : profile) (a b : nat) : no_err (usize_mul prof a b).
Proof.
  unfold usize_mul, usize_result. destruct (_ <? _)%N; [exact I|]. destruct prof; exact I.
Qed.

Lemma fmt_count_no_err (n : nat) : no_err (fmt_count n).
Proof. unfold fmt_count. destruct (_ <=? _)%N; exact I. Qed.

Lemma trim_trailing_no_err (output : str) : no_err (trim_trailing output).
Proof. destruct (trim_trailing_outcome output) as [[o ->] | ->]; exact I. Qed.

#[local] Hint Resolve bind_no_err index_no_err write_str_no_err trim_trailing_no_err
  usize_add_no_err usize_mul_no_err fmt_count_no_err : no_err_db.

Lemma rule_cells_no_err (prof : profile) (l m : char) (spaces : nat) (ws : list nat) :
  forall output i, no_err (rule_cells prof l m spaces output i ws).
Proof. induction ws; cbn [rule_cells]; [exact (fun _ _ => I)|]; eauto with no_err_db. Qed.

Lemma rule_line_no_err (prof : profile) (l m r : char) (spaces : nat) (output : str)
    (ws : list nat) :
  no_err (rule_line prof l m r spaces output ws).
Proof.
  unfold rule_line. apply bind_no_err; [apply rule_cells_no_err|]. intros o. exact I.
Qed.

#[local] Hint Resolve rule_line_no_err : no_err_db.

Lemma basic_fields_no_err (prof : profile) (ws : list nat) (spaces : nat)
    (fields : record) :
  forall output i, no_err (basic_fields prof ws spaces output i fields).
Proof.
  induction fields; cbn [basic_fields]; [exact (fun _ _ => I)|]; eauto with no_err_db.
Qed.

Lemma fancy_fields_no_err (ws : list nat) (spaces : nat) (fields : record) :
  forall output j, no_err (fancy_fields ws spaces output j fields).
Proof.
  induction fields; cbn [fancy_fields]; [exact (fun _ _ => I)|]; eauto with no_err_db.
Qed.

#[local] Hint Resolve basic_fields_no_err fancy_fields_no_err : no_err_db.

Lemma basic_rows_no_err (prof : profile) (ws : list nat) (spaces : nat)
    (rs : list record) :
  forall output, no_err (basic_rows prof ws spaces output rs).
Proof. induction rs; cbn [basic_rows]; [exact (fun _ => I)|]; eauto with no_err_db. Qed.

Lemma fancy_rows_no_err (prof : profile) (headers separators : bool) (ws : list nat)
    (spaces : nat) (rs : list record) :
  forall output i, no_err (fancy_rows prof headers separators ws spaces output i rs).
Proof.
  induction rs; cbn [fancy_rows]; [exact (fun _ _ => I)|]. intros output i.
  apply bind_no_err;
    [destruct (sep_before headers separators i); [apply rule_line_no_err | exact I]|].
  intros o1. apply bind_no_err; [apply fancy_fields_no_err|].
  intros o2. apply IHrs.
Qed.

(** C10: neither formatter ever returns the [Err] variant: writing into a
    [String] cannot fail, so every outcome is [Ok] or one of the panics. *)
Theorem formatters_never_err (prof : profile) (t : Table) (spaces : nat)
    (headers separators : bool) (e : fmt_error) :
  basic_format prof t spaces <> Err e /\
  fancy_format prof t headers separators spaces <> Err e.
Proof.
  split; intros E.
  - pose proof (basic_rows_no_err prof (widths t) spaces (records t) []) as H.
    unfold basic_format in E; rewrite E in H; exact H.
  - assert (H : no_err (fancy_format prof t headers separators spaces)).
    { unfold fancy_format. apply bind_no_err; [apply rule_line_no_err|].
      intros o1. apply bind_no_err; [apply fancy_rows_no_err|].
      intros o2. apply rule_line_no_err. }
    rewrite E in H; exact H.
Qed.

(** ** Determinism *)

(** C9: the model reads nothing but its arguments: equal records and equal
    options give equal widths and byte-identical renderings. *)
Theorem render_deterministic (prof : profile) (r1 r2 : list record) (st1 st2 : style)
    (h1 h2 s1 s2 : bool) (sp1 sp2 : nat) :
  r1 = r2 -> st1 = st2 -> h1 = h2 -> s1 = s2 -> sp1 = sp2 ->
  calculate_widths r1 = calculate_widths r2 /\
  render prof r1 st1 h1 s1 sp1 = render prof r2 st2 h2 s2 sp2.
Proof. intros -> -> -> -> ->. split; reflexivity. Qed.

Lemma render_deterministic_witness :
  sc_records = sc_records /\ Fancy = Fancy /\ true = true /\ false = false /\ 1 = 1 /\
  calculate_widths sc_records = calculate_widths sc_records /\
  render Release sc_records Fancy true false 1 = render Release sc_records Fancy true false 1.
Proof.
  do 5 (split; [reflexivity|]).
  exact (render_deterministic Release sc_records sc_records Fancy Fancy true true false false 1 1
           eq_refl eq_refl eq_refl eq_refl eq_refl).
Defined.

(** ** Trimming in the basic format *)

(** C2 (code bug): [rfind] scans the whole output, not the current row, and
    assumes a one-byte char.  A row of empty fields after another row is
    trimmed back into the previous line (two records, one line); a first row
    of empty fields keeps one blank; a row ending in a multi-byte char
    panics in [truncate]. *)
Theorem basic_trim_whole_output (prof : profile) :
  basic_format prof (from_records [[u "a"; u "b"]; [[]; []]]) 1 = Ok (unlines [u "a b"]) /\
  basic_format prof (from_records [[[]]]) 1 = Ok (unlines [u " "]) /\
  basic_format prof (from_records [[u "é"]]) 1 = Panic NotCharBoundary.
Proof. destruct prof; (split; [|split]); vm_compute; reflexivity. Qed.

(** * Further properties of the code *)

(** ** Basic format: closed form *)

Lemma utf8_len_pos (c : char) : 1 <= utf8_len c.
Proof. unfold utf8_len; repeat destruct (_ <? _)%N; lia. Qed.

Lemma str_len_app (a b : str) : str_len (a ++ b) = str_len a + str_len b.
Proof. induction a as [|c a IH]; simpl; [reflexivity|]. rewrite IH; lia. Qed.

Lemma skipn_nth_error_cons (ws : list nat) (i w : nat) :
  nth_error ws i = Some w -> skipn i ws = w :: skipn (S i) ws.
Proof.
  revert i; induction ws as [|x ws IH]; intros [|i] H; simpl in *; try discriminate.
  - injection H as ->; reflexivity.
  - apply IH, H.
Qed.

Lemma Forall_nth_error {A} (P : A -> Prop) (l : list A) (i : nat) (x : A) :
  Forall P l -> nth_error l i = Some x -> P x.
Proof.
  intros H E. rewrite Forall_forall in H. apply H. eapply nth_error_In; exact E.
Qed.

Lemma usize_add_release (a b : nat) : usize_add Release a b = Ok (usize_wrap (a + b)).
Proof.
  unfold usize_add, usize_result, usize_wrap. rewrite Nat2N.inj_add.
  destruct (N.of_nat a + N.of_nat b <? usize_modulus)%N eqn:E; [|reflexivity].
  apply N.ltb_lt in E. rewrite N.mod_small by exact E. reflexivity.
Qed.

Lemma basic_counts_small (prof : profile) (ws : list nat) (spaces : nat) :
  Forall (fun w => fits_count (w + spaces)) ws ->
  Forall (fun w => usize_add prof w spaces = Ok (usize_wrap (w + spaces)) /\
                   fits_count (usize_wrap (w + spaces))) ws.
Proof.
  apply Forall_impl. intros w Hw.
  rewrite usize_wrap_small by exact Hw. split; [apply usize_add_small|]; exact Hw.
Qed.

Lemma basic_counts_release (ws : list nat) (spaces : nat) :
  Forall (fun w => fits_count (usize_wrap (w + spaces))) ws ->
  Forall (fun w => usize_add Release w spaces = Ok (usize_wrap (w + spaces)) /\
                   fits_count (usize_wrap (w + spaces))) ws.
Proof.
  apply Forall_impl. intros w Hw. split; [apply usize_add_release | exact Hw].
Qed.

Lemma basic_fields_text (prof : profile) (ws : list nat) (spaces : nat) (fields : record) :
  Forall (fun w => usize_add prof w spaces = Ok (usize_wrap (w + spaces)) /\
                     fits_count (usize_wrap (w + spaces))) ws ->
  forall output i, i + length fields <= length ws ->
  basic_fields prof ws spaces output i fields
  = Ok (output ++ basic_row_text (skipn i ws) spaces fields).
Proof.
  intros Hws. induction fields as [|f fs IH]; intros output i H; cbn [basic_fields].
  - unfold basic_row_text. rewrite combine_nil. simpl. rewrite app_nil_r. reflexivity.
  - simpl in H. destruct (nth_error ws i) as [w|] eqn:E.
    + pose proof (Forall_nth_error _ _ _ _ Hws E) as Hw.
      unfold index; rewrite E; cbn [bind].
      destruct Hw as [Hadd Hw]. rewrite Hadd; cbn [bind].
      rewrite fmt_count_small by exact Hw; cbn [bind].
      unfold write_str; cbn [bind]. rewrite IH by lia.
      rewrite (skipn_nth_error_cons _ _ _ E). unfold basic_row_text; simpl.
      rewrite app_assoc; reflexivity.
    + apply nth_error_None in E; lia.
Qed.

Lemma rfind_nonws_from_app (pos : nat) (a b : str) :
  rfind_nonws_from pos (a ++ b)
  = match rfind_nonws_from (pos + str_len a) b with
    | Some k => Some k
    | None => rfind_nonws_from pos a
    end.
Proof.
  revert pos; induction a as [|c a IH]; intros pos; simpl.
  - rewrite Nat.add_0_r. destruct (rfind_nonws_from pos b); reflexivity.
  - rewrite IH, Nat.add_assoc. destruct (rfind_nonws_from (pos + utf8_len c + str_len a) b);
      reflexivity.
Qed.

Lemma rfind_nonws_from_all_ws (pos : nat) (s : str) :
  Forall (fun x => is_whitespace x = true) s -> rfind_nonws_from pos s = None.
Proof.
  intros H; revert pos; induction H as [|x s Hx _ IH]; intros pos; simpl; [reflexivity|].
  rewrite IH, Hx; reflexivity.
Qed.

Lemma truncate_app (a b : str) (k : nat) :
  truncate (a ++ b) (str_len a + k) = option_map (app a) (truncate b k).
Proof.
  induction a as [|c a IH]; simpl.
  - destruct (truncate b k); reflexivity.
  - pose proof (utf8_len_pos c).
    replace (utf8_len c + str_len a + k =? 0) with false by (symmetry; apply Nat.eqb_neq; lia).
    replace (utf8_len c <=? utf8_len c + str_len a + k) with true
      by (symmetry; apply Nat.leb_le; lia).
    replace (utf8_len c + str_len a + k - utf8_len c) with (str_len a + k) by lia.
    rewrite IH. destruct (truncate b k); reflexivity.
Qed.

Lemma drop_ws_split (l z : str) (c : char) :
  drop_ws l = c :: z ->
  exists p, l = p ++ c :: z /\ Forall (fun x => is_whitespace x = true) p /\
            is_whitespace c = false.
Proof.
  induction l as [|x l IH]; simpl; intros H; [discriminate|].
  destruct (is_whitespace x) eqn:Ex.
  - destruct (IH H) as (p & -> & Hp & Hc). exists (x :: p). auto.
  - injection H as -> ->. exists []. auto.
Qed.

Lemma drop_ws_all_ws_app (p l : str) :
  Forall (fun x => is_whitespace x = true) p -> drop_ws (p ++ l) = drop_ws l.
Proof. induction 1 as [|x p Hx _ IH]; simpl; [reflexivity|]. rewrite Hx; exact IH. Qed.

Lemma trim_trailing_row (prev row : str) (c : char) :
  last_nonws row = Some c -> (c < 128)%N ->
  trim_trailing (prev ++ row) = Ok (prev ++ rtrim row).
Proof.
  unfold last_nonws, rtrim. intros Hl Hc.
  destruct (drop_ws (rev row)) as [|c' z] eqn:E; [discriminate|].
  injection Hl as ->.
  destruct (drop_ws_split _ _ _ E) as (p & Hrev & Hp & Hws).
  assert (Hrow : row = rev z ++ c :: rev p)
    by (rewrite <- (rev_involutive row), Hrev, rev_app_distr; simpl;
        rewrite <- app_assoc; reflexivity).
  assert (Hp' : Forall (fun x => is_whitespace x = true) (rev p))
    by (apply Forall_rev; exact Hp).
  unfold trim_trailing, rfind_nonws. rewrite Hrow, app_assoc.
  rewrite rfind_nonws_from_app. simpl.
  rewrite rfind_nonws_from_all_ws by exact Hp'. rewrite Hws.
  assert (Hu : utf8_len c = 1) by (unfold utf8_len; apply N.ltb_lt in Hc; rewrite Hc; reflexivity).
  rewrite truncate_app. simpl. rewrite Hu. simpl.
  replace (truncate (rev p) 0) with (Some (@nil char)) by (destruct (rev p); reflexivity).
  simpl. rewrite <- app_assoc. reflexivity.
Qed.

Lemma basic_rows_closed_form (prof : profile) (ws : list nat) (spaces : nat)
    (rs : list record) :
  Forall (fun w => usize_add prof w spaces = Ok (usize_wrap (w + spaces)) /\
                     fits_count (usize_wrap (w + spaces))) ws ->
  Forall (fun r => length r <= length ws) rs ->
  Forall (fun r => exists c, last_nonws (basic_row_text ws spaces r) = Some c
                             /\ (c < 128)%N) rs ->
  forall output, basic_rows prof ws spaces output rs
  = Ok (output ++ unlines (map (fun r => rtrim (basic_row_text ws spaces r)) rs)).
Proof.
  intros Hws Hb Hl. induction rs as [|r rs IH]; intros output; cbn [basic_rows].
  - rewrite app_nil_r. reflexivity.
  - inversion Hb as [|? ? Hr Hrs]; inversion Hl as [|? ? (c & Hc & Hasc) Hls]; subst.
    rewrite basic_fields_text by (assumption || (simpl; lia)). cbn [bind skipn].
    rewrite trim_trailing_row with (c := c) by assumption. simpl.
    unfold write_str. rewrite IH by assumption.
    unfold unlines; simpl. rewrite <- !app_assoc. reflexivity.
Qed.

(** X1: when every record fits the widths, every count [widths[i] + spaces]
    fits a format count (at most [u16::MAX]), and every padded row has a
    non-whitespace char, the last one ASCII, [basic_format] gives one line per
    record, in order: the padded row with its trailing whitespace removed. *)
Theorem basic_format_closed_form (prof : profile) (t : Table) (spaces : nat) :
  Forall (fun w => fits_count (w + spaces)) (widths t) ->
  Forall (fun r => length r <= length (widths t)) (records t) ->
  Forall (fun r => exists c, last_nonws (basic_row_text (widths t) spaces r) = Some c
                             /\ (c < 128)%N) (records t) ->
  basic_format prof t spaces
  = Ok (unlines (map (fun r => rtrim (basic_row_text (widths t) spaces r)) (records t))).
Proof.
  intros Hws Hb Hl. unfold basic_format.
  rewrite basic_rows_closed_form; [reflexivity | apply basic_counts_small, Hws | exact Hb | exact Hl].
Qed.

Lemma basic_format_closed_form_witness :
  Forall (fun w => fits_count (w + 1)) (widths (from_records sc_records)) /\
  Forall (fun r => length r <= length (widths (from_records sc_records)))
    (records (from_records sc_records)) /\
  Forall (fun r => exists c,
            last_nonws (basic_row_text (widths (from_records sc_records)) 1 r) = Some c
            /\ (c < 128)%N) (records (from_records sc_records)) /\
  basic_format Debug (from_records sc_records) 1
  = Ok (unlines (map (fun r => rtrim (basic_row_text (widths (from_records sc_records)) 1 r))
                   (records (from_records sc_records)))).
Proof.
  assert (H0 : Forall (fun w => fits_count (w + 1)) (widths (from_records sc_records)))
    by (replace (widths (from_records sc_records)) with [2; 2] by (vm_compute; reflexivity);
        repeat constructor; unfold fits_count; lia).
  assert (H1 : Forall (fun r => length r <= length (widths (from_records sc_records)))
                 (records (from_records sc_records))) by (vm_compute; repeat constructor).
  assert (H2 : Forall (fun r => exists c,
            last_nonws (basic_row_text (widths (from_records sc_records)) 1 r) = Some c
            /\ (c < 128)%N) (records (from_records sc_records))).
  { vm_compute. repeat constructor; eexists; split; try reflexivity; vm_compute; reflexivity. }
  split; [exact H0 | split; [exact H1 | split; [exact H2 |]]].
  exact (basic_format_closed_form Debug (from_records sc_records) 1 H0 H1 H2).
Defined.

(** ** Fancy format: closed form and alignment *)

Lemma fancy_fields_text (ws : list nat) (spaces : nat) (fields : record) :
  Forall (fun w => fits_count (w + 2 * spaces)) ws ->
  forall output j, j + length fields <= length ws ->
  fancy_fields ws spaces output j fields
  = Ok (output ++ concat (map (fun p => [vbar] ++ pad space spaces [] ++ pad space (fst p) (snd p)
                                         ++ pad space spaces [])
                             (combine (skipn j ws) fields))).
Proof.
  intros Hws. induction fields as [|f fs IH]; intros output j H; cbn [fancy_fields].
  - rewrite combine_nil. simpl. rewrite app_nil_r. reflexivity.
  - simpl in H. destruct (nth_error ws j) as [w|] eqn:E.
    + pose proof (Forall_nth_error _ _ _ _ Hws E) as Hw. unfold fits_count in Hw.
      unfold index; rewrite E; cbn [bind].
      rewrite fmt_count_small by (unfold fits_count; lia); cbn [bind].
      rewrite fmt_count_small by (unfold fits_count; lia); cbn [bind].
      unfold write_str; cbn [bind]. rewrite IH by lia.
      rewrite (skipn_nth_error_cons _ _ _ E). simpl.
      repeat rewrite <- app_assoc; simpl; repeat rewrite <- app_assoc. reflexivity.
    + apply nth_error_None in E; lia.
Qed.

Lemma fancy_rows_closed (prof : profile) (headers separators : bool) (ws : list nat)
    (spaces : nat) (rs : list record) :
  Forall (fun w => fits_count (w + 2 * spaces)) ws ->
  Forall (fun r => length r <= length ws) rs ->
  forall output i, fancy_rows prof headers separators ws spaces output i rs
  = Ok (output ++ unlines (fancy_body headers separators ws spaces i rs)).
Proof.
  intros Hws. induction 1 as [|r rs Hr Hrs IH]; intros output i; cbn [fancy_rows fancy_body].
  - rewrite app_nil_r. reflexivity.
  - destruct (sep_before headers separators i); [rewrite rule_line_small by exact Hws|];
      cbn [bind].
    all: rewrite fancy_fields_text by (assumption || lia); cbn [bind skipn write_str];
      rewrite IH; unfold unlines, fancy_row_text; simpl;
      repeat rewrite <- app_assoc; simpl; repeat rewrite <- app_assoc; reflexivity.
Qed.

Lemma fancy_format_closed (prof : profile) (t : Table) (headers separators : bool)
    (spaces : nat) :
  Forall (fun w => fits_count (w + 2 * spaces)) (widths t) ->
  Forall (fun r => length r <= length (widths t)) (records t) ->
  fancy_format prof t headers separators spaces
  = Ok (unlines ([rule_row top_l top_m top_r spaces (widths t)]
                 ++ fancy_body headers separators (widths t) spaces 0 (records t)
                 ++ [rule_row bot_l bot_m bot_r spaces (widths t)])).
Proof.
  intros Hws H. unfold fancy_format. rewrite rule_line_small by exact Hws; cbn [bind].
  rewrite fancy_rows_closed by assumption; cbn [bind]. rewrite rule_line_small by exact Hws.
  unfold unlines; simpl; rewrite map_app, concat_app; simpl.
  repeat rewrite <- app_assoc. reflexivity.
Qed.

(** X2: when every record fits the widths and every rule count
    [widths[i] + 2 * spaces] fits a format count (at most [u16::MAX]),
    [fancy_format] succeeds with the top border, then for each record in order
    its separator (when [sep_before] holds for its index) and its data line
    [│ field │ ... │], then the bottom border. *)
Theorem fancy_format_closed_form (prof : profile) (t : Table) (headers separators : bool)
    (spaces : nat) :
  Forall (fun w => fits_count (w + 2 * spaces)) (widths t) ->
  Forall (fun r => length r <= length (widths t)) (records t) ->
  fancy_format prof t headers separators spaces
  = Ok (unlines ([rule_row top_l top_m top_r spaces (widths t)]
                 ++ fancy_body headers separators (widths t) spaces 0 (records t)
                 ++ [rule_row bot_l bot_m bot_r spaces (widths t)])).
Proof. exact (fancy_format_closed prof t headers separators spaces). Qed.

Lemma fancy_format_closed_form_witness :
  Forall (fun w => fits_count (w + 2 * 1)) (widths (from_records three_records)) /\
  Forall (fun r => length r <= length (widths (from_records three_records)))
    (records (from_records three_records)) /\
  fancy_format Release (from_records three_records) true false 1
  = Ok (unlines ([rule_row top_l top_m top_r 1 (widths (from_records three_records))]
                 ++ fancy_body true false (widths (from_records three_records)) 1 0
                      (records (from_records three_records))
                 ++ [rule_row bot_l bot_m bot_r 1 (widths (from_records three_records))])).
Proof.
  assert (H0 : Forall (fun w => fits_count (w + 2 * 1)) (widths (from_records three_records)))
    by (replace (widths (from_records three_records)) with [1] by (vm_compute; reflexivity);
        repeat constructor; unfold fits_count; lia).
  assert (H : Forall (fun r => length r <= length (widths (from_records three_records)))
                (records (from_records three_records))) by (vm_compute; repeat constructor).
  split; [exact H0 | split; [exact H|]].
  exact (fancy_format_closed_form Release _ true false 1 H0 H).
Defined.

Lemma utf8_len_le_str_len (s : str) : length s <= str_len s.
Proof.
  induction s as [|c s IH]; simpl; [lia|]. pose proof (utf8_len_pos c). lia.
Qed.

Lemma rule_cells_length (l m : char) (spaces : nat) (ws : list nat) :
  Forall (fun w => fits_count (w + 2 * spaces)) ws ->
  forall i, length (concat (map (rule_cell l m spaces) (combine (seq i (length ws)) ws)))
            = fold_right (fun w acc => S (w + 2 * spaces + acc)) 0 ws.
Proof.
  induction 1 as [|w ws Hw _ IH]; intros i; simpl; [reflexivity|].
  rewrite length_app, IH. unfold rule_cell; simpl. rewrite repeat_length.
  rewrite usize_wrap_small by exact Hw. lia.
Qed.

Lemma rule_row_length (l m r : char) (spaces : nat) (ws : list nat) :
  Forall (fun w => fits_count (w + 2 * spaces)) ws ->
  length (rule_row l m r spaces ws) = box_width ws spaces.
Proof.
  intros H. unfold rule_row, box_width. rewrite length_app, rule_cells_length by exact H.
  simpl. lia.
Qed.

Lemma pad_length (fill : char) (w : nat) (s : str) :
  length s <= w -> length (pad fill w s) = w.
Proof. intros H. unfold pad. rewrite length_app, repeat_length. lia. Qed.

Lemma fancy_row_text_length (ws : list nat) (spaces : nat) (r : record) :
  length r = length ws ->
  Forall (fun p => length (snd p) <= fst p) (combine ws r) ->
  length (fancy_row_text ws spaces r) = box_width ws spaces.
Proof.
  unfold fancy_row_text, box_width. revert r.
  induction ws as [|w ws IH]; intros [|f r] Hl Hf; simpl in Hl; try discriminate.
  - reflexivity.
  - inversion Hf as [|? ? Hw Hrest]; subst. simpl in Hw.
    specialize (IH r ltac:(lia) Hrest).
    assert (Hc : length ([vbar] ++ pad space spaces [] ++ pad space w f ++ pad space spaces [])
                 = S (spaces + w + spaces)).
    { rewrite !length_app, !pad_length by (simpl; lia). simpl. lia. }
    cbn [combine map concat fst snd]. rewrite <- app_assoc, length_app, Hc.
    rewrite length_app in IH. rewrite length_app. cbn [fold_right]. lia.
Qed.

Lemma fancy_row_text_no_nl (ws : list nat) (spaces : nat) (r : record) :
  Forall (fun f => ~ In nl f) r -> ~ In nl (fancy_row_text ws spaces r).
Proof.
  unfold fancy_row_text. intros Hr Hin.
  apply in_app_iff in Hin as [Hin | [H | []]]; [|revert H; chars_neq].
  apply in_concat in Hin as (cell & Hcell & Hc).
  apply in_map_iff in Hcell as ([w f] & <- & Hp). simpl in Hc.
  apply in_combine_r in Hp.
  rewrite !pad_empty in Hc. unfold pad in Hc.
  destruct Hc as [H | Hc]; [revert H; chars_neq|].
  rewrite !in_app_iff in Hc.
  destruct Hc as [H | [[H | H] | H]]; try (apply repeat_spec in H; revert H; chars_neq).
  rewrite Forall_forall in Hr. exact (Hr f Hp H).
Qed.

Lemma fancy_body_props (P : str -> Prop) (headers separators : bool) (ws : list nat)
    (spaces : nat) (rs : list record) :
  P (rule_row sep_l sep_m sep_r spaces ws) ->
  Forall (fun r => P (fancy_row_text ws spaces r)) rs ->
  forall i, Forall P (fancy_body headers separators ws spaces i rs).
Proof.
  intros Hs. induction 1 as [|r rs Hr _ IH]; intros i; simpl; [constructor|].
  destruct (sep_before headers separators i); simpl; repeat constructor; auto.
Qed.

Lemma from_records_fit (rs : list record) (n : nat) :
  Forall (fun r => length r = n) rs ->
  Forall (fun r => length r = length (calculate_widths rs) /\
                   Forall (fun p => length (snd p) <= fst p)
                     (combine (calculate_widths rs) r)) rs.
Proof.
  intros Hrect.
  assert (Hfirst : (match rs with [] => 0 | r :: _ => length r end) = n \/ rs = []).
  { destruct rs; [right; reflexivity | left; inversion Hrect; assumption]. }
  destruct Hfirst as [Hfirst | ->]; [|constructor].
  assert (Hw := fold_widths_nth rs n Hrect (repeat 0 n) (repeat_length 0 n)).
  unfold calculate_widths. rewrite Hfirst. destruct Hw as [Hl Hn].
  rewrite Forall_forall. intros r Hr.
  assert (Hrn : length r = n) by (rewrite Forall_forall in Hrect; auto).
  split; [lia|].
  rewrite Forall_forall. intros p Hp.
  destruct (In_nth _ _ (0, []) Hp) as (k & Hk & Hnth).
  rewrite length_combine in Hk.
  rewrite combine_nth in Hnth by lia. subst p. simpl.
  rewrite Hn by lia. rewrite nth_repeat, Nat.max_0_l.
  pose proof (col_max_ge k rs) as Hge. rewrite Forall_forall in Hge.
  specialize (Hge r Hr). pose proof (utf8_len_le_str_len (nth k r [])). lia.
Qed.

(** X3: for records that all have the same number of fields and no newline
    in a field, and widths whose rule counts [w + 2 * spaces] fit a format
    count (at most [u16::MAX]), [fancy_format] of the table built from them
    succeeds and every line of its output has the same number of chars,
    [box_width]: borders, separators and data lines line up.  (Widths count
    bytes and padding counts chars, so a non-ASCII field is over-padded but
    stays aligned.) *)
Theorem fancy_lines_aligned (prof : profile) (rs : list record) (n : nat)
    (headers separators : bool) (spaces : nat) :
  Forall (fun r => length r = n) rs ->
  Forall (Forall (fun f => ~ In nl f)) rs ->
  Forall (fun w => fits_count (w + 2 * spaces)) (calculate_widths rs) ->
  exists out, fancy_format prof (from_records rs) headers separators spaces = Ok out /\
    Forall (fun l => length l = box_width (calculate_widths rs) spaces) (lines out).
Proof.
  intros Hrect Hnl Hws.
  pose proof (from_records_fit rs n Hrect) as Hfit.
  assert (Hb : Forall (fun r => length r <= length (widths (from_records rs)))
                 (records (from_records rs))).
  { cbn [records widths from_records].
    eapply Forall_impl; [|exact Hfit]. intros r Hr. destruct Hr as [Hr1 _].
    exact (Nat.eq_le_incl _ _ Hr1). }
  eexists; split; [exact (fancy_format_closed prof (from_records rs) headers separators spaces Hws Hb)|].
  simpl. rewrite lines_unlines.
  - constructor; [apply rule_row_length, Hws|]. apply Forall_app; split.
    + apply fancy_body_props; [apply rule_row_length, Hws|].
      eapply Forall_impl; [|exact Hfit]. intros r [H1 H2].
      apply fancy_row_text_length; assumption.
    + constructor; [apply rule_row_length, Hws | constructor].
  - constructor; [apply rule_row_no_nl; chars_neq|]. apply Forall_app; split.
    + apply fancy_body_props; [apply rule_row_no_nl; chars_neq|].
      eapply Forall_impl; [|exact Hnl]. intros r Hr. apply fancy_row_text_no_nl, Hr.
    + constructor; [apply rule_row_no_nl; chars_neq | constructor].
Qed.

Lemma fancy_lines_aligned_witness :
  Forall (fun r => length r = 2) sc_records /\
  Forall (Forall (fun f => ~ In nl f)) sc_records /\
  Forall (fun w => fits_count (w + 2 * 1)) (calculate_widths sc_records) /\
  exists out, fancy_format Debug (from_records sc_records) true true 1 = Ok out /\
    Forall (fun l => length l = box_width (calculate_widths sc_records) 1) (lines out).
Proof.
  assert (H1 : Forall (fun r => length r = 2) sc_records) by (repeat constructor).
  assert (H2 : Forall (Forall (fun f => ~ In nl f)) sc_records).
  { repeat constructor; vm_compute; intros H; repeat destruct H as [H|H];
      discriminate || contradiction. }
  assert (H3 : Forall (fun w => fits_count (w + 2 * 1)) (calculate_widths sc_records))
    by (replace (calculate_widths sc_records) with [2; 2] by (vm_compute; reflexivity);
        repeat constructor; unfold fits_count; lia).
  split; [exact H1 | split; [exact H2 | split; [exact H3 |]]].
  exact (fancy_lines_aligned Debug sc_records 2 true true 1 H1 H2 H3).
Defined.

(** ** [from_path] then format *)

Lemma basic_rows_in_bounds (prof : profile) (ws : list nat) (spaces : nat)
    (rs : list record) :
  Forall (fun w => usize_add prof w spaces = Ok (usize_wrap (w + spaces)) /\
                     fits_count (usize_wrap (w + spaces))) ws ->
  Forall (fun r => length r <= length ws) rs ->
  forall output,
  (exists o, basic_rows prof ws spaces output rs = Ok o) \/
  basic_rows prof ws spaces output rs = Panic NotCharBoundary.
Proof.
  intros Hws. induction 1 as [|r rs Hr Hrs IH]; intros output; cbn [basic_rows];
    [left; eauto|].
  rewrite basic_fields_text by (assumption || lia). cbn [bind].
  destruct (trim_trailing_outcome (output ++ basic_row_text (skipn 0 ws) spaces r))
    as [[o2 ->] | ->]; cbn [bind write_str]; [apply IH | right; reflexivity].
Qed.

(** X4: for records that all have the same number of fields (what the csv
    reader yields) and widths whose rule counts [w + 2 * spaces] fit a format
    count, the table built by [from_path] renders: [fancy_format] succeeds,
    and the only failure left to [basic_format] is the char-boundary panic of
    its trim step. *)
Theorem from_records_in_bounds (prof : profile) (rs : list record) (n : nat)
    (spaces : nat) (headers separators : bool) :
  Forall (fun r => length r = n) rs ->
  Forall (fun w => fits_count (w + 2 * spaces)) (calculate_widths rs) ->
  ((exists out, basic_format prof (from_records rs) spaces = Ok out) \/
   basic_format prof (from_records rs) spaces = Panic NotCharBoundary) /\
  exists out, fancy_format prof (from_records rs) headers separators spaces = Ok out.
Proof.
  intros Hrect Hws.
  assert (Hb : Forall (fun r => length r <= length (widths (from_records rs)))
                 (records (from_records rs))).
  { cbn [records widths from_records].
    eapply Forall_impl; [|exact (from_records_fit rs n Hrect)]. intros r Hr.
    destruct Hr as [Hr1 _]. exact (Nat.eq_le_incl _ _ Hr1). }
  assert (Hws1 : Forall (fun w => fits_count (w + spaces)) (widths (from_records rs))).
  { eapply Forall_impl; [|exact Hws]. unfold fits_count. intros w Hw. lia. }
  split.
  - apply basic_rows_in_bounds; [apply basic_counts_small, Hws1 | exact Hb].
  - eexists. exact (fancy_format_closed prof (from_records rs) headers separators spaces Hws Hb).
Qed.

Lemma from_records_in_bounds_witness :
  Forall (fun r => length r = 2) sc_records /\
  Forall (fun w => fits_count (w + 2 * 1)) (calculate_widths sc_records) /\
  ((exists out, basic_format Release (from_records sc_records) 1 = Ok out) \/
   basic_format Release (from_records sc_records) 1 = Panic NotCharBoundary) /\
  exists out, fancy_format Release (from_records sc_records) false true 1 = Ok out.
Proof.
  assert (H : Forall (fun r => length r = 2) sc_records) by (repeat constructor).
  assert (H2 : Forall (fun w => fits_count (w + 2 * 1)) (calculate_widths sc_records))
    by (replace (calculate_widths sc_records) with [2; 2] by (vm_compute; reflexivity);
        repeat constructor; unfold fits_count; lia).
  split; [exact H | split; [exact H2 |]].
  exact (from_records_in_bounds Release sc_records 2 1 false true H H2).
Defined.

(** ** The [--spaces] option *)

Lemma digits_fold_ge (ds : list N) (acc : N) :
  (acc <= fold_left (fun a d : N => a * 10 + d) ds acc)%N.
Proof.
  revert acc; induction ds as [|d ds IH]; intros acc; simpl; [lia|].
  specialize (IH (acc * 10 + d)%N). lia.
Qed.

Lemma parse_digits_map (ds : list N) :
  Forall (fun d => (d < 10)%N) ds ->
  forall acc, (acc <= usize_max)%N -> parse_digits acc (map (fun d => ascii_of_N (48 + d)) ds)
  = if (fold_left (fun a d : N => a * 10 + d) ds acc <=? usize_max)%N
    then Some (fold_left (fun a d : N => (a * 10 + d)%N) ds acc) else None.
Proof.
  induction 1 as [|d ds Hd _ IH]; intros acc Hacc; cbn [parse_digits map fold_left].
  - apply N.leb_le in Hacc. rewrite Hacc. reflexivity.
  - rewrite N_ascii_embedding by lia.
    replace ((48 <=? 48 + d) && (48 + d <=? 57))%N with true
      by (symmetry; apply andb_true_intro; split; apply N.leb_le; lia).
    replace (48 + d - 48)%N with d by lia.
    pose proof (digits_fold_ge ds (acc * 10 + d)).
    destruct (acc * 10 <=? usize_max)%N eqn:E1.
    + destruct (acc * 10 + d <=? usize_max)%N eqn:E2.
      * apply IH. apply N.leb_le, E2.
      * destruct (fold_left _ ds (acc * 10 + d) <=? usize_max)%N eqn:E3; [|reflexivity].
        apply N.leb_le in E3; apply N.leb_gt in E2; lia.
    + destruct (fold_left _ ds (acc * 10 + d) <=? usize_max)%N eqn:E3; [|reflexivity].
      apply N.leb_le in E3; apply N.leb_gt in E1; lia.
Qed.

(** X5: a non-empty string of decimal digits (leading zeros allowed), with or
    without a leading ['+'], sets [spaces] to its value when the value fits a
    64-bit [usize], and to the fallback 1 when it overflows. *)
Theorem parse_spaces_digits (ds : list N) :
  Forall (fun d => (d < 10)%N) ds -> ds <> [] ->
  parse_spaces (digits_string ds)
  = (if (digits_value ds <=? usize_max)%N then N.to_nat (digits_value ds) else 1) /\
  parse_spaces (String (ascii_of_N 43) (digits_string ds))
  = (if (digits_value ds <=? usize_max)%N then N.to_nat (digits_value ds) else 1).
Proof.
  intros Hds Hne.
  assert (Hp : parse_digits 0 (map (fun d => ascii_of_N (48 + d)) ds)
               = if (digits_value ds <=? usize_max)%N then Some (digits_value ds) else None)
    by (apply parse_digits_map; [exact Hds | unfold usize_max; lia]).
  unfold parse_spaces, usize_from_str, digits_string.
  rewrite list_ascii_of_string_of_list_ascii.
  split.
  - destruct ds as [|d [|d' ds']]; [congruence| |].
    + inversion Hds as [|? ? Hd _]; subst. cbn [map] in *.
      rewrite N_ascii_embedding by lia.
      replace ((48 + d =? 43)%N || (48 + d =? 45)%N) with false
        by (symmetry; apply orb_false_intro; apply N.eqb_neq; lia).
      rewrite Hp. destruct (_ <=? _)%N; reflexivity.
    + inversion Hds as [|? ? Hd _]; subst. cbn [map] in *.
      rewrite N_ascii_embedding by lia.
      replace (48 + d =? 43)%N with false by (symmetry; apply N.eqb_neq; lia).
      rewrite Hp. destruct (_ <=? _)%N; reflexivity.
  - cbn [list_ascii_of_string]. rewrite list_ascii_of_string_of_list_ascii.
    destruct ds as [|d ds']; [congruence|]. cbn [map] in *.
    rewrite Hp. destruct (_ <=? _)%N; reflexivity.
Qed.

Lemma parse_spaces_digits_witness :
  Forall (fun d => (d < 10)%N) [0; 4]%N /\ [0; 4]%N <> [] /\
  parse_spaces (digits_string [0; 4]%N)
  = (if (digits_value [0; 4]%N <=? usize_max)%N then N.to_nat (digits_value [0; 4]%N) else 1) /\
  parse_spaces (String (ascii_of_N 43) (digits_string [0; 4]%N))
  = (if (digits_value [0; 4]%N <=? usize_max)%N then N.to_nat (digits_value [0; 4]%N) else 1).
Proof.
  assert (H1 : Forall (fun d => (d < 10)%N) [0; 4]%N) by (repeat constructor).
  assert (H2 : [0; 4]%N <> []) by discriminate.
  split; [exact H1 | split; [exact H2 |]].
  exact (parse_spaces_digits [0; 4]%N H1 H2).
Defined.

Lemma parse_digits_non_digit (l : list ascii) :
  Exists (fun c => is_digit c = false) l -> forall acc, parse_digits acc l = None.
Proof.
  induction 1 as [c l Hc | c l _ IH]; intros acc; simpl.
  - unfold is_digit in Hc. rewrite Hc. reflexivity.
  - destruct (_ && _)%N; [|reflexivity].
    destruct (acc * 10 <=? usize_max)%N; [|reflexivity].
    destruct (_ <=? usize_max)%N; [apply IH | reflexivity].
Qed.

(** X6: an empty [--spaces] value, or one whose digit part (all bytes but a
    leading ['+'] followed by more) holds a byte that is not an ASCII digit,
    silently falls back to 1 space. *)
Theorem parse_spaces_fallback (s : string) :
  s = EmptyString \/ Exists (fun c => is_digit c = false) (digit_part s) ->
  parse_spaces s = 1.
Proof.
  unfold parse_spaces, usize_from_str, digit_part.
  intros [-> | H]; [reflexivity|].
  destruct (list_ascii_of_string s) as [|c [|c' rest]].
  - reflexivity.
  - destruct (_ || _)%N; [reflexivity|]. rewrite parse_digits_non_digit by exact H.
    reflexivity.
  - destruct (N_of_ascii c =? 43)%N; rewrite parse_digits_non_digit by exact H;
      reflexivity.
Qed.

Lemma parse_spaces_fallback_witness :
  ("x1"%string = EmptyString \/
   Exists (fun c => is_digit c = false) (digit_part "x1"%string)) /\
  parse_spaces "x1"%string = 1.
Proof.
  assert (H : "x1"%string = EmptyString \/
              Exists (fun c => is_digit c = false) (digit_part "x1"%string))
    by (right; apply Exists_cons_hd; reflexivity).
  split; [exact H|]. exact (parse_spaces_fallback "x1"%string H).
Defined.

(** ** The end of [main] *)

Lemma render_no_err (prof : profile) (rs : list record) (st : style)
    (headers separators : bool) (spaces : nat) :
  no_err (render prof rs st headers separators spaces).
Proof.
  unfold render; destruct st.
  - apply basic_rows_no_err.
  - unfold fancy_format. apply bind_no_err; [apply rule_line_no_err|].
    intros o1. apply bind_no_err; [apply fancy_rows_no_err|].
    intros o2. apply rule_line_no_err.
Qed.

(** X7: [main] exits with status 1 exactly when the CSV input failed to
    parse: the branch that reports a formatting error is never taken, so a
    parsed table is either printed or aborts with a panic. *)
Theorem main_exit1_iff_parse_error (prof : profile) (parsed : option (list record))
    (st : style) (headers separators : bool) (spaces_arg : string) :
  main_tail prof parsed st headers separators spaces_arg = Exit1 <-> parsed = None.
Proof.
  split; [|intros ->; reflexivity].
  destruct parsed as [rs|]; [|reflexivity]. unfold main_tail.
  pose proof (render_no_err prof rs st headers separators (parse_spaces spaces_arg)) as H.
  destruct (render _ _ _ _ _); [discriminate | contradiction | discriminate].
Qed.

(** ** Counts beyond a format count or beyond [usize] *)

Lemma usize_add_exact (prof : profile) (a b : nat) :
  (N.of_nat (a + b) < usize_modulus)%N -> usize_add prof a b = Ok (a + b).
Proof.
  intros H. unfold usize_add. rewrite <- Nat2N.inj_add, usize_result_small by exact H.
  rewrite Nat2N.id. reflexivity.
Qed.

Lemma usize_mul_exact (prof : profile) (a b : nat) :
  (N.of_nat (a * b) < usize_modulus)%N -> usize_mul prof a b = Ok (a * b).
Proof.
  intros H. unfold usize_mul. rewrite <- Nat2N.inj_mul, usize_result_small by exact H.
  rewrite Nat2N.id. reflexivity.
Qed.

Lemma usize_add_overflow_debug (a b : nat) :
  (usize_modulus <= N.of_nat (a + b))%N -> usize_add Debug a b = Panic ArithmeticOverflow.
Proof.
  intros H. unfold usize_add, usize_result. rewrite <- Nat2N.inj_add.
  replace (N.of_nat (a + b) <? usize_modulus)%N with false
    by (symmetry; apply N.ltb_ge; exact H).
  reflexivity.
Qed.

(** X8: a rule count [widths[0] + spaces * 2] above [u16::MAX] but below
    [2^64] makes [fancy_format] panic with "Formatting argument out of range"
    at the first cell of the top border, in either build profile. *)
Theorem fancy_format_count_panic (prof : profile) (t : Table) (headers separators : bool)
    (spaces w : nat) (ws : list nat) :
  widths t = w :: ws ->
  (65535 < N.of_nat (w + spaces * 2))%N ->
  (N.of_nat (w + spaces * 2) < usize_modulus)%N ->
  fancy_format prof t headers separators spaces = Panic CountOutOfRange.
Proof.
  intros Hw Hbig Hsmall. unfold fancy_format, rule_line. rewrite Hw. cbn [rule_cells].
  rewrite usize_mul_exact by lia. cbn [bind].
  rewrite usize_add_exact by exact Hsmall. cbn [bind].
  rewrite fmt_count_large by exact Hbig. reflexivity.
Qed.

Lemma fancy_format_count_panic_witness :
  widths (from_records sc_records) = 2 :: [2] /\
  (65535 < N.of_nat (2 + 32767 * 2))%N /\
  (N.of_nat (2 + 32767 * 2) < usize_modulus)%N /\
  fancy_format Release (from_records sc_records) true true 32767 = Panic CountOutOfRange.
Proof.
  assert (H0 : widths (from_records sc_records) = 2 :: [2]) by (vm_compute; reflexivity).
  assert (H1 : (65535 < N.of_nat (2 + 32767 * 2))%N) by (vm_compute; reflexivity).
  assert (H2 : (N.of_nat (2 + 32767 * 2) < usize_modulus)%N) by (vm_compute; reflexivity).
  split; [exact H0 | split; [exact H1 | split; [exact H2 |]]].
  exact (fancy_format_count_panic Release (from_records sc_records) true true 32767 2 [2]
           H0 H1 H2).
Defined.

(** X9: when the first record has a field and [widths[0] + spaces] is above
    [u16::MAX] but below [2^64], [basic_format] panics with "Formatting
    argument out of range" at that field, in either build profile. *)
Theorem basic_format_count_panic (prof : profile) (t : Table) (spaces : nat)
    (f : str) (r : record) (rs : list record) (w : nat) (ws : list nat) :
  records t = (f :: r) :: rs -> widths t = w :: ws ->
  (65535 < N.of_nat (w + spaces))%N ->
  (N.of_nat (w + spaces) < usize_modulus)%N ->
  basic_format prof t spaces = Panic CountOutOfRange.
Proof.
  intros Hr Hw Hbig Hsmall. unfold basic_format. rewrite Hr, Hw.
  cbn [basic_rows basic_fields]. unfold index; cbn [nth_error bind].
  rewrite usize_add_exact by exact Hsmall. cbn [bind].
  rewrite fmt_count_large by exact Hbig. reflexivity.
Qed.

Lemma basic_format_count_panic_witness :
  records (from_records sc_records) = (u "a" :: [u "bb"]) :: [[u "cc"; u "d"]] /\
  widths (from_records sc_records) = 2 :: [2] /\
  (65535 < N.of_nat (2 + 65534))%N /\
  (N.of_nat (2 + 65534) < usize_modulus)%N /\
  basic_format Debug (from_records sc_records) 65534 = Panic CountOutOfRange.
Proof.
  assert (H0 : records (from_records sc_records) = (u "a" :: [u "bb"]) :: [[u "cc"; u "d"]])
    by reflexivity.
  assert (H1 : widths (from_records sc_records) = 2 :: [2]) by (vm_compute; reflexivity).
  assert (H2 : (65535 < N.of_nat (2 + 65534))%N) by (vm_compute; reflexivity).
  assert (H3 : (N.of_nat (2 + 65534) < usize_modulus)%N) by (vm_compute; reflexivity).
  split; [exact H0 | split; [exact H1 | split; [exact H2 | split; [exact H3 |]]]].
  exact (basic_format_count_panic Debug (from_records sc_records) 65534 (u "a") [u "bb"]
           [[u "cc"; u "d"]] 2 [2] H0 H1 H2 H3).
Defined.

(** X10: when the first record has a field and [widths[0] + spaces] reaches
    [2^64], a debug build panics with an arithmetic overflow in both
    formatters (in [fancy_format] at the first rule cell, on [spaces * 2] or
    on the sum), while a release build never takes that panic. *)
Theorem usize_overflow_debug_only (t : Table) (spaces : nat) (headers separators : bool)
    (f : str) (r : record) (rs : list record) (w : nat) (ws : list nat) :
  records t = (f :: r) :: rs -> widths t = w :: ws ->
  (usize_modulus <= N.of_nat (w + spaces))%N ->
  basic_format Debug t spaces = Panic ArithmeticOverflow /\
  fancy_format Debug t headers separators spaces = Panic ArithmeticOverflow /\
  basic_format Release t spaces <> Panic ArithmeticOverflow /\
  fancy_format Release t headers separators spaces <> Panic ArithmeticOverflow.
Proof.
  intros Hr Hw Hbig.
  assert (Hany : Forall (fun r => length r <= length (widths t)
                                  \/ ArithmeticOverflow <> IndexOutOfBounds) (records t))
    by (apply Forall_forall; intros ? _; right; discriminate).
  split; [|split; [|split]].
  - unfold basic_format. rewrite Hr, Hw.
    cbn [basic_rows basic_fields]. unfold index; cbn [nth_error bind].
    rewrite usize_add_overflow_debug by exact Hbig. reflexivity.
  - unfold fancy_format, rule_line. rewrite Hw. cbn [rule_cells].
    unfold usize_mul at 1, usize_result at 1. rewrite <- Nat2N.inj_mul.
    destruct (N.of_nat (spaces * 2) <? usize_modulus)%N; cbn [bind]; [|reflexivity].
    rewrite Nat2N.id, usize_add_overflow_debug by lia. reflexivity.
  - apply no_panic_neq. apply basic_format_no_panic; [left; reflexivity | discriminate
      | discriminate | exact Hany].
  - apply no_panic_neq. apply fancy_format_no_panic; [left; reflexivity | discriminate
      | exact Hany].
Qed.

Lemma usize_overflow_debug_only_witness :
  records (from_records sc_records) = (u "a" :: [u "bb"]) :: [[u "cc"; u "d"]] /\
  widths (from_records sc_records) = 2 :: [2] /\
  (usize_modulus <= N.of_nat (2 + N.to_nat usize_max))%N /\
  basic_format Debug (from_records sc_records) (N.to_nat usize_max) = Panic ArithmeticOverflow /\
  fancy_format Debug (from_records sc_records) true true (N.to_nat usize_max)
  = Panic ArithmeticOverflow /\
  basic_format Release (from_records sc_records) (N.to_nat usize_max) <> Panic ArithmeticOverflow /\
  fancy_format Release (from_records sc_records) true true (N.to_nat usize_max)
  <> Panic ArithmeticOverflow.
Proof.
  assert (H0 : records (from_records sc_records) = (u "a" :: [u "bb"]) :: [[u "cc"; u "d"]])
    by reflexivity.
  assert (H1 : widths (from_records sc_records) = 2 :: [2]) by (vm_compute; reflexivity).
  assert (H2 : (usize_modulus <= N.of_nat (2 + N.to_nat usize_max))%N)
    by (rewrite Nat2N.inj_add, N2Nat.id; vm_compute; discriminate).
  split; [exact H0 | split; [exact H1 | split; [exact H2 |]]].
  exact (usize_overflow_debug_only (from_records sc_records) (N.to_nat usize_max) true true
           (u "a") [u "bb"] [[u "cc"; u "d"]] 2 [2] H0 H1 H2).
Defined.

(** X11: a release build does not panic on an overflowing count: it pads to
    [(widths[i] + spaces) mod 2^64]. When these wrapped counts fit a format
    count, every record fits the widths and every padded row ends in an ASCII
    non-whitespace char, [basic_format] gives the closed form of X1 over the
    wrapped counts, for any [spaces]. *)
Theorem basic_format_release_wraps (t : Table) (spaces : nat) :
  Forall (fun w => fits_count (usize_wrap (w + spaces))) (widths t) ->
  Forall (fun r => length r <= length (widths t)) (records t) ->
  Forall (fun r => exists c, last_nonws (basic_row_text (widths t) spaces r) = Some c
                             /\ (c < 128)%N) (records t) ->
  basic_format Release t spaces
  = Ok (unlines (map (fun r => rtrim (basic_row_text (widths t) spaces r)) (records t))).
Proof.
  intros Hws Hb Hl. unfold basic_format.
  rewrite basic_rows_closed_form;
    [reflexivity | apply basic_counts_release, Hws | exact Hb | exact Hl].
Qed.

Lemma basic_format_release_wraps_witness :
  Forall (fun w => fits_count (usize_wrap (w + N.to_nat usize_max)))
    (widths (from_records sc_records)) /\
  Forall (fun r => length r <= length (widths (from_records sc_records)))
    (records (from_records sc_records)) /\
  Forall (fun r => exists c,
            last_nonws (basic_row_text (widths (from_records sc_records))
                          (N.to_nat usize_max) r) = Some c
            /\ (c < 128)%N) (records (from_records sc_records)) /\
  basic_format Release (from_records sc_records) (N.to_nat usize_max)
  = Ok (unlines [u "abb"; u "ccd"]).
Proof.
  assert (E : usize_wrap (2 + N.to_nat usize_max) = 1)
    by (unfold usize_wrap; rewrite Nat2N.inj_add, N2Nat.id; vm_compute; reflexivity).
  assert (Hw : widths (from_records sc_records) = [2; 2]) by (vm_compute; reflexivity).
  assert (Hr : records (from_records sc_records) = [[u "a"; u "bb"]; [u "cc"; u "d"]])
    by reflexivity.
  assert (H0 : Forall (fun w => fits_count (usize_wrap (w + N.to_nat usize_max)))
                 (widths (from_records sc_records)))
    by (rewrite Hw; repeat constructor; rewrite E; unfold fits_count; lia).
  assert (H1 : Forall (fun r => length r <= length (widths (from_records sc_records)))
                 (records (from_records sc_records)))
    by (rewrite Hw, Hr; repeat constructor).
  assert (H2 : Forall (fun r => exists c,
            last_nonws (basic_row_text (widths (from_records sc_records))
                          (N.to_nat usize_max) r) = Some c
            /\ (c < 128)%N) (records (from_records sc_records))).
  { rewrite Hw, Hr. unfold basic_row_text.
    constructor; [exists 98%N | constructor; [exists 100%N | constructor]];
      cbn [combine map fst snd]; rewrite E; (split; [vm_compute; reflexivity | lia]). }
  split; [exact H0 | split; [exact H1 | split; [exact H2 |]]].
  rewrite (basic_format_release_wraps (from_records sc_records) (N.to_nat usize_max) H0 H1 H2).
  rewrite Hw, Hr. unfold basic_row_text. cbn [combine map fst snd]. rewrite E.
  vm_compute; reflexivity.
Defined.
